(** * Client of the code-review platform: API wrapper, services, forms, poller

    A shallow embedding of the JavaScript sources
    - [src/services/api.js], [src/services/auth.js], [src/services/projects.js],
      [src/services/analysis.js], [src/hooks/useAnalysis.js]
    - [src/pages/Register.jsx]
    followed by the properties of the specification that concern them.

    Conventions.  A JavaScript string is embedded as a [string]; [.length] is
    [String.length].  [localStorage] and header objects are finite maps from
    strings to strings.  An [async] function with one [await] on a request is
    split at the [await]: the part before it yields the request put on the
    wire, the part after it is a function of the settled promise.  Replies of
    the backend are inputs of the model. *)

From Stdlib Require Import QArith Qround.
From stdpp Require Import gmap strings list fin_maps pretty.

Set Warnings "-register-all".
Open Scope Z_scope.

(** ** JavaScript values carried by response bodies and React state cells *)

Inductive jsval :=
  | VUndefined
  | VNull
  | VBool (b : bool)
  | VNum (z : Z)
  | VStr (s : string)
  | VArr (items : list jsval)
  | VObj (fields : list (string * jsval)).

(** Fields of a parsed object have distinct keys; the first match is the field. *)
Fixpoint field (k : string) (fields : list (string * jsval)) : jsval :=
  match fields with
  | [] => VUndefined
  | (k', v) :: rest => if bool_decide (k' = k) then v else field k rest
  end.

(** [v.k].  Reading a property of [null] or [undefined] throws (result [None]);
    on the other primitives and on arrays a field name of the client reads
    as [undefined]. *)
Definition get_prop (v : jsval) (k : string) : option jsval :=
  match v with
  | VUndefined | VNull => None
  | VObj fields => Some (field k fields)
  | _ => Some VUndefined
  end.

(** The message of the [TypeError] raised by a failed property read. *)
Definition type_error_message (v : jsval) (k : string) : string :=
  "Cannot read properties of " +:+
  (match v with VNull => "null" | _ => "undefined" end) +:+
  " (reading '" +:+ k +:+ "')".

(** The message of the [TypeError] raised by destructuring [{ k }] out of
    the [null] or [undefined] value of the expression [src]. *)
Definition destructure_error_message (v : jsval) (k src : string) : string :=
  "Cannot destructure property '" +:+ k +:+ "' of '" +:+ src +:+ "' as it is " +:+
  (match v with VNull => "null" | _ => "undefined" end) +:+ ".".

(** [!!v] *)
Definition truthy (v : jsval) : bool :=
  match v with
  | VUndefined | VNull => false
  | VBool b => b
  | VNum z => negb (z =? 0)
  | VStr s => negb (bool_decide (s = ""))
  | VArr _ | VObj _ => true
  end.

(** [String(v)], as applied by [localStorage.setItem] to its value.  Numbers
    are the integral ones, printed in decimal: this is JavaScript's result
    for integers of magnitude below 1e21; larger ones (printed with an
    exponent) and fractions are not covered. *)
Fixpoint toString (v : jsval) : string :=
  match v with
  | VUndefined => "undefined"
  | VNull => "null"
  | VBool true => "true"
  | VBool false => "false"
  | VNum z => pretty z
  | VStr s => s
  | VArr items =>
      let elem x := match x with VUndefined | VNull => "" | _ => toString x end in
      (fix join (l : list jsval) : string :=
         match l with
         | [] => ""
         | [x] => elem x
         | x :: rest => elem x +:+ "," +:+ join rest
         end) items
  | VObj _ => "[object Object]"
  end.

(** [a || b] *)
Definition js_or (a b : jsval) : jsval := if truthy a then a else b.

(** ** The browser: [localStorage] and [window.location] *)

Record browser := {
  localStorage : gmap string string;
  href : string;                 (* window.location.href *)
  navigations : list string;     (* every assignment to it, oldest first *)
}.

Definition getItem (b : browser) (k : string) : option string :=
  localStorage b !! k.

Definition setItem (b : browser) (k : string) (v : jsval) : browser :=
  {| localStorage := <[k := toString v]> (localStorage b);
     href := href b; navigations := navigations b |}.

Definition removeItem (b : browser) (k : string) : browser :=
  {| localStorage := delete k (localStorage b);
     href := href b; navigations := navigations b |}.

Definition set_href (b : browser) (target : string) : browser :=
  {| localStorage := localStorage b;
     href := target; navigations := navigations b ++ [target] |}.

(** A string read from storage, or [null], used as a condition. *)
Definition truthy_item (o : option string) : bool :=
  match o with
  | Some s => negb (bool_decide (s = ""))
  | None => false
  end.

(** ** src/services/api.js *)

Module api.

Inductive http_method := GET | POST | DELETE.

Record file := { file_name : string; file_size : N }.

Inductive body :=
  | NoBody
  | Payload (v : jsval)
  | FormData (entries : list (string * file)).

Record request := {
  method : http_method;
  url : string;
  headers : gmap string string;
  data : body;
}.

Record response := {
  status : Z;
  response_data : jsval;
}.

(** What is thrown into a [catch]: an error of axios (with the response
    when there was one) or a [TypeError] of the client's own code. *)
Inductive js_error :=
  | AxiosError (msg : string) (resp : option response)
  | TypeError (msg : string).

Definition message (e : js_error) : string :=
  match e with AxiosError msg _ => msg | TypeError msg => msg end.

Definition error_response (e : js_error) : option response :=
  match e with AxiosError _ resp => resp | TypeError _ => None end.

Inductive promise (A : Type) :=
  | Fulfilled (a : A)
  | Rejected (e : js_error).
Arguments Fulfilled {A} a.
Arguments Rejected {A} e.

(** What comes back from the network for one request. *)
Inductive reply :=
  | Replied (r : response)
  | NetworkError (msg : string).

(** The relative paths below are resolved against [API_BASE_URL]. *)
Definition DEFAULT_BASE_URL : string := "http://localhost:8000/api/v1".

Definition API_BASE_URL (VITE_API_URL : option string) : string :=
  match VITE_API_URL with
  | Some u => if bool_decide (u = "") then DEFAULT_BASE_URL else u
  | None => DEFAULT_BASE_URL
  end.

(** [axios.create({ headers: { 'Content-Type': 'application/json' } })] *)
Definition default_headers : gmap string string :=
  {[ "Content-Type" := "application/json" ]}.

(** Request interceptor - add auth token *)
Definition request_interceptor (b : browser) (config : request) : request :=
  match getItem b "token" with
  | Some token =>
      if truthy_item (Some token) then
        {| method := method config; url := url config;
           headers := <["Authorization" := "Bearer " +:+ token]> (headers config);
           data := data config |}
      else config
  | None => config
  end.

(** Response interceptor - handle errors; the rejection handler. *)
Definition response_interceptor (b : browser) (error : js_error)
  : browser * promise response :=
  match error_response error with
  | Some r =>
      if status r =? 401 then
        (set_href (removeItem b "token") "/login", Rejected error)
      else (b, Rejected error)
  | None => (b, Rejected error)
  end.

(** axios' default [validateStatus] *)
Definition validateStatus (s : Z) : bool := (200 <=? s) && (s <? 300).

(** How axios settles a request before the interceptors run. *)
Definition settle (rp : reply) : promise response :=
  match rp with
  | Replied r =>
      if validateStatus (status r) then Fulfilled r
      else Rejected (AxiosError
                       ("Request failed with status code " +:+ pretty (status r))
                       (Some r))
  | NetworkError msg => Rejected (AxiosError msg None)
  end.

(** The response side of the client: the fulfilment handler is the
    identity, the rejection handler is [response_interceptor]. *)
Definition receive (b : browser) (rp : reply) : browser * promise response :=
  match settle rp with
  | Fulfilled r => (b, Fulfilled r)
  | Rejected e => response_interceptor b e
  end.

(** The request side: instance defaults, overridden by the call's own
    headers, then the request interceptor.  The defaults are those the
    source gives to [axios.create]; the headers axios adds by itself (its
    built-in [Accept]) are not listed. *)
Definition send (b : browser) (m : http_method) (u : string) (d : body)
    (own : gmap string string) : request :=
  request_interceptor b
    {| method := m; url := u; headers := own ∪ default_headers; data := d |}.

Definition get (b : browser) (u : string) : request := send b GET u NoBody ∅.
Definition post (b : browser) (u : string) (d : body)
    (own : gmap string string) : request := send b POST u d own.
Definition delete (b : browser) (u : string) : request := send b DELETE u NoBody ∅.

(** An [async] function suspended at its [await] on a request. *)
Record call (A : Type) := {
  wire : request;
  resume : browser -> promise response -> browser * promise A;
}.
Arguments wire {A} c.
Arguments resume {A} c b p.

(** Run a suspended call to the end on the backend's reply. *)
Definition complete {A} (c : call A) (b : browser) (rp : reply)
  : browser * promise A :=
  let '(b1, p) := receive b rp in resume c b1 p.

(** [return response.data] *)
Definition return_data (b : browser) (p : promise response)
  : browser * promise jsval :=
  match p with
  | Fulfilled r => (b, Fulfilled (response_data r))
  | Rejected e => (b, Rejected e)
  end.

End api.

(** ** src/services/auth.js *)

Module authService.
Import api.

Definition register (b : browser) (userData : jsval) : call jsval :=
  {| wire := post b "/auth/register" (Payload userData) ∅;
     resume := return_data |}.

Definition login (b : browser) (credentials : jsval) : call jsval :=
  {| wire := post b "/auth/login" (Payload credentials)
               {[ "Content-Type" := "application/x-www-form-urlencoded" ]};
     resume := fun b p =>
       match p with
       | Fulfilled r =>
           match get_prop (response_data r) "access_token" with
           | Some access_token =>
               (setItem b "token" access_token, Fulfilled (response_data r))
           | None =>
               (b, Rejected (TypeError
                               (destructure_error_message (response_data r)
                                  "access_token" "response.data")))
           end
       | Rejected e => (b, Rejected e)
       end |}.

Definition getCurrentUser (b : browser) : call jsval :=
  {| wire := get b "/auth/me"; resume := return_data |}.

Definition logout (b : browser) : browser :=
  set_href (removeItem b "token") "/login".

Definition isAuthenticated (b : browser) : bool :=
  truthy_item (getItem b "token").

End authService.

(** ** src/services/projects.js *)

Module projectService.
Import api.

Definition createProject (b : browser) (projectData : jsval) : call jsval :=
  {| wire := post b "/projects" (Payload projectData) ∅; resume := return_data |}.

Definition getProjects (b : browser) : call jsval :=
  {| wire := get b "/projects"; resume := return_data |}.

Definition getProject (b : browser) (projectId : string) : call jsval :=
  {| wire := get b ("/projects/" +:+ projectId); resume := return_data |}.

Definition deleteProject (b : browser) (projectId : string) : call unit :=
  {| wire := api.delete b ("/projects/" +:+ projectId);
     resume := fun b p =>
       match p with
       | Fulfilled _ => (b, Fulfilled tt)
       | Rejected e => (b, Rejected e)
       end |}.

(** [formData.append('files', file)] *)
Definition append (formData : list (string * file)) (name : string) (f : file)
  : list (string * file) := formData ++ [(name, f)].

(** [files.forEach((file) => { formData.append('files', file); })] on a
    fresh [FormData]. *)
Definition collect (files : list file) : list (string * file) :=
  fold_left (fun formData f => append formData "files" f) files [].

Definition uploadFiles (b : browser) (projectId : string) (files : list file)
  : call jsval :=
  {| wire := post b ("/projects/" +:+ projectId +:+ "/upload")
               (FormData (collect files))
               {[ "Content-Type" := "multipart/form-data" ]};
     resume := return_data |}.

End projectService.

(** ** src/services/analysis.js *)

Module analysisService.
Import api.

Definition startAnalysis (b : browser) (projectId : string) : call jsval :=
  {| wire := post b ("/analysis/run/" +:+ projectId) NoBody ∅;
     resume := return_data |}.

Definition getAnalysisStatus (b : browser) (projectId : string) : call jsval :=
  {| wire := get b ("/analysis/status/" +:+ projectId); resume := return_data |}.

Definition getAnalysisResults (b : browser) (projectId : string) : call jsval :=
  {| wire := get b ("/analysis/results/" +:+ projectId); resume := return_data |}.

End analysisService.

(** ** src/context/AuthContext.jsx (the part the registration form uses) *)

Module AuthContext.

Definition register (b : browser) (userData : jsval) : api.call jsval :=
  authService.register b userData.

(** The two [useState] cells of the provider. *)
Record state := {
  user : jsval;
  loading : bool;
}.

Definition initial : state := {| user := VNull; loading := true |}.

Definition setUser (v : jsval) (st : state) : state :=
  {| user := v; loading := loading st |}.
Definition setLoading (v : bool) (st : state) : state :=
  {| user := user st; loading := v |}.

(** [isAuthenticated: !!user] of the context value. *)
Definition isAuthenticated (st : state) : bool := truthy (user st).

(** What a function of the provider does to the outside, in order. *)
Inductive effect :=
  | Request (r : api.request)
  | ConsoleError (label : string) (e : api.js_error).

(** Where an [async] function of the provider ends: the browser, the
    cells, what it did, and what it resolves or rejects with. *)
Record run (A : Type) := {
  browser_after : browser;
  state_after : state;
  effects : list effect;
  result : api.promise A;
}.
Arguments browser_after {A} r.
Arguments state_after {A} r.
Arguments effects {A} r.
Arguments result {A} r.

(** [checkAuth]; [me] is the backend's reply to [GET /auth/me], looked at
    only when the request is made. *)
Definition checkAuth (b : browser) (st : state) (me : api.reply) : run unit :=
  if authService.isAuthenticated b then
    let c := authService.getCurrentUser b in
    let '(b1, p) := api.complete c b me in
    match p with
    | api.Fulfilled userData =>
        {| browser_after := b1;
           state_after := setLoading false (setUser userData st);
           effects := [Request (api.wire c)];
           result := api.Fulfilled tt |}
    | api.Rejected error =>
        {| browser_after := authService.logout b1;
           state_after := setLoading false st;
           effects := [Request (api.wire c); ConsoleError "Auth check failed:" error];
           result := api.Fulfilled tt |}
    end
  else
    {| browser_after := b; state_after := setLoading false st;
       effects := []; result := api.Fulfilled tt |}.

(** [login]: [authService.login], then [checkAuth], then the login data. *)
Definition login (b : browser) (st : state) (credentials : jsval)
    (token me : api.reply) : run jsval :=
  let c := authService.login b credentials in
  let '(b1, p) := api.complete c b token in
  match p with
  | api.Fulfilled data =>
      let r := checkAuth b1 st me in
      {| browser_after := browser_after r; state_after := state_after r;
         effects := Request (api.wire c) :: effects r;
         result := api.Fulfilled data |}
  | api.Rejected error =>
      {| browser_after := b1; state_after := st;
         effects := [Request (api.wire c)];
         result := api.Rejected error |}
  end.

Definition logout (b : browser) (st : state) : browser * state :=
  (authService.logout b, setUser VNull st).

End AuthContext.

(** ** src/pages/Register.jsx *)

Module Register.
Import api.

Record formData := {
  username : string;
  email : string;
  full_name : string;
  password : string;
  confirmPassword : string;
}.

Record state := {
  form : formData;
  error : jsval;
  success : bool;
  loading : bool;
}.

Definition initial : state :=
  {| form := {| username := ""; email := ""; full_name := "";
                password := ""; confirmPassword := "" |};
     error := VStr ""; success := false; loading := false |}.

Definition setError (e : jsval) (st : state) : state :=
  {| form := form st; error := e; success := success st; loading := loading st |}.
Definition setSuccess (v : bool) (st : state) : state :=
  {| form := form st; error := error st; success := v; loading := loading st |}.
Definition setLoading (v : bool) (st : state) : state :=
  {| form := form st; error := error st; success := success st; loading := v |}.

(** What the handler does to the outside, in order. *)
Inductive effect :=
  | PreventDefault
  | Request (r : request)
  | SetTimeout (ms : Z) (navigate_to : string).

Definition userData (f : formData) : jsval :=
  VObj [("username", VStr (username f)); ("email", VStr (email f));
        ("full_name", VStr (full_name f)); ("password", VStr (password f))].

(** [handleSubmit] up to [await register(...)], or to its early [return]. *)
Definition handleSubmit (b : browser) (st : state) : state * list effect :=
  let st := setError (VStr "") st in
  if negb (bool_decide (password (form st) = confirmPassword (form st))) then
    (setError (VStr "Passwords do not match") st, [PreventDefault])
  else if bool_decide (String.length (password (form st)) < 8)%nat then
    (setError (VStr "Password must be at least 8 characters") st, [PreventDefault])
  else
    (setLoading true st,
     [PreventDefault; Request (wire (AuthContext.register b (userData (form st))))]).

(** [err.response?.data?.detail] *)
Definition detail (err : js_error) : jsval :=
  match error_response err with
  | Some r => default VUndefined (get_prop (response_data r) "detail")
  | None => VUndefined
  end.

(** [handleSubmit] after the [await]: [try] tail, [catch] and [finally]. *)
Definition handleSubmit_settled (st : state) (p : promise jsval)
  : state * list effect :=
  match p with
  | Fulfilled _ =>
      (setLoading false (setSuccess true st), [SetTimeout 2000 "/login"])
  | Rejected err =>
      (setLoading false
         (setError (js_or (detail err)
                      (VStr "Registration failed. Please try again.")) st), [])
  end.

(** The requests among the effects of a run of the handler. *)
Definition requests (effs : list effect) : list request :=
  omap (fun e => match e with Request r => Some r | _ => None end) effs.

End Register.

(** ** src/pages/Login.jsx *)

Module Login.
Import api.

Record credentials := {
  username : string;
  password : string;
}.

Record state := {
  form : credentials;
  error : jsval;
  loading : bool;
}.

Definition initial : state :=
  {| form := {| username := ""; password := "" |};
     error := VStr ""; loading := false |}.

Definition setError (e : jsval) (st : state) : state :=
  {| form := form st; error := e; loading := loading st |}.
Definition setLoading (v : bool) (st : state) : state :=
  {| form := form st; error := error st; loading := v |}.

Inductive effect :=
  | PreventDefault
  | Navigate (path : string).

(** The object handed to [login]. *)
Definition payload (c : credentials) : jsval :=
  VObj [("username", VStr (username c)); ("password", VStr (password c))].

(** [handleSubmit] up to [await login(credentials)]. *)
Definition handleSubmit (st : state) : state * list effect :=
  (setLoading true (setError (VStr "") st), [PreventDefault]).

(** [err.response?.data?.detail] *)
Definition detail (err : js_error) : jsval :=
  match error_response err with
  | Some r => default VUndefined (get_prop (response_data r) "detail")
  | None => VUndefined
  end.

(** [handleSubmit] after the [await]: [try] tail, [catch] and [finally]. *)
Definition handleSubmit_settled (st : state) (p : promise jsval)
  : state * list effect :=
  match p with
  | Fulfilled _ => (setLoading false st, [Navigate "/dashboard"])
  | Rejected err =>
      (setLoading false
         (setError (js_or (detail err) (VStr "Login failed. Please try again.")) st),
       [])
  end.

(** A whole submission: the form handler around the provider's [login]. *)
Definition submit (b : browser) (ctx : AuthContext.state) (st : state)
    (token me : reply) : AuthContext.run jsval * state * list effect :=
  let '(st1, effs1) := handleSubmit st in
  let r := AuthContext.login b ctx (payload (form st)) token me in
  let '(st2, effs2) := handleSubmit_settled st1 (AuthContext.result r) in
  (r, st2, effs1 ++ effs2).

End Login.

(** ** src/hooks/useAnalysis.js *)

Module useAnalysis.
Import api.

(** The four [useState] cells. *)
Record hook := {
  analysis : jsval;
  status : jsval;
  loading : bool;
  error : jsval;
}.

(** The [await] at which a request of the hook is suspended. *)
Inductive awaiting :=
  | InStartAnalysis            (* startAnalysis: await analysisService.startAnalysis *)
  | InPoll (interval : nat)    (* callback of [interval]: await getAnalysisStatus *)
  | InFetchResults.            (* fetchResults: await getAnalysisResults *)

(** A live interval timer: its period and the time, counted in ms from
    the [setInterval] call, at which its callback runs next.  The timer is
    an ideal one: it runs its callback exactly when due, without drift. *)
Record timer := { delay : Z; due : Z }.

(** What the hook does to the outside, in order. *)
Inductive effect :=
  | Http (rid : nat) (site : awaiting) (req : request)
  | SetInterval (id : nat) (ms : Z)
  | ClearInterval (id : nat)
  | Fired (id : nat) (at_ms : Z).

Record world := {
  projectId : string;
  cells : hook;
  mounted : bool;
  window : browser;
  timers : gmap nat timer;
  next_timer : nat;
  pending : gmap nat awaiting;
  next_request : nat;
  log : list effect;
}.

Definition action := world -> world.

Definition with_cells (f : hook -> hook) : action := fun w =>
  {| projectId := projectId w; cells := f (cells w); mounted := mounted w;
     window := window w; timers := timers w; next_timer := next_timer w;
     pending := pending w; next_request := next_request w; log := log w |}.

Definition setAnalysis (v : jsval) : action := with_cells (fun h =>
  {| analysis := v; status := status h; loading := loading h; error := error h |}).
Definition setStatus (v : jsval) : action := with_cells (fun h =>
  {| analysis := analysis h; status := v; loading := loading h; error := error h |}).
Definition setLoading (v : bool) : action := with_cells (fun h =>
  {| analysis := analysis h; status := status h; loading := v; error := error h |}).
Definition setError (v : jsval) : action := with_cells (fun h =>
  {| analysis := analysis h; status := status h; loading := loading h; error := v |}).

(** [setInterval(callback, ms)]: a fresh id, first run after [ms]. *)
Definition setInterval (ms : Z) : action := fun w =>
  let id := next_timer w in
  {| projectId := projectId w; cells := cells w; mounted := mounted w;
     window := window w;
     timers := <[id := {| delay := ms; due := ms |}]> (timers w);
     next_timer := S id;
     pending := pending w; next_request := next_request w;
     log := log w ++ [SetInterval id ms] |}.

Definition clearInterval (id : nat) : action := fun w =>
  {| projectId := projectId w; cells := cells w; mounted := mounted w;
     window := window w;
     timers := base.delete id (timers w);
     next_timer := next_timer w;
     pending := pending w; next_request := next_request w;
     log := log w ++ [ClearInterval id] |}.

(** Put the request of a service call on the wire and suspend at [site]. *)
Definition request (site : awaiting) (service : browser -> string -> call jsval)
  : action := fun w =>
  let rid := next_request w in
  {| projectId := projectId w; cells := cells w; mounted := mounted w;
     window := window w; timers := timers w; next_timer := next_timer w;
     pending := <[rid := site]> (pending w);
     next_request := S rid;
     log := log w ++ [Http rid site (wire (service (window w) (projectId w)))] |}.

Definition then_ (a1 a2 : action) : action := fun w => a2 (a1 w).
Notation "a1 >>> a2" := (then_ a1 a2) (at level 62, right associativity).
Definition skip : action := fun w => w.

(** [x === 'completed'] *)
Definition is_completed (v : jsval) : bool :=
  match v with VStr s => bool_decide (s = "completed") | _ => false end.

Definition POLL_MS : Z := 3000.

(** [startAnalysis], up to its [await]. *)
Definition startAnalysis : action :=
  setLoading true >>> setError VNull >>>
  request InStartAnalysis analysisService.startAnalysis.

(** [pollStatus]: the returned cleanup closure is dropped by the caller. *)
Definition pollStatus : action := setInterval POLL_MS.

(** [fetchResults], up to its [await]. *)
Definition fetchResults : action :=
  request InFetchResults analysisService.getAnalysisResults.

(** [startAnalysis] after its [await]. *)
Definition startAnalysis_settled (p : promise jsval) : action :=
  match p with
  | Fulfilled _ => setStatus (VStr "processing") >>> pollStatus
  | Rejected err => setError (VStr (message err)) >>> setLoading false
  end.

(** The [catch] of the interval callback. *)
Definition poll_catch (interval : nat) (err : js_error) : action :=
  clearInterval interval >>> setError (VStr (message err)) >>> setLoading false.

(** The interval callback, up to its [await]. *)
Definition poll_tick (interval : nat) : action :=
  request (InPoll interval) analysisService.getAnalysisStatus.

(** The interval callback after its [await]. *)
Definition poll_settled (interval : nat) (p : promise jsval) : action :=
  match p with
  | Fulfilled statusData =>
      match get_prop statusData "status" with
      | Some s =>
          setStatus s >>>
          (if is_completed s then clearInterval interval >>> fetchResults else skip)
      | None => poll_catch interval (TypeError (type_error_message statusData "status"))
      end
  | Rejected err => poll_catch interval err
  end.

(** [fetchResults] after its [await]. *)
Definition fetchResults_settled (p : promise jsval) : action :=
  match p with
  | Fulfilled results => setAnalysis results >>> setLoading false
  | Rejected err => setError (VStr (message err)) >>> setLoading false
  end.

(** The timer [id] comes due: it is rescheduled one period later. *)
Definition reschedule (id : nat) (t : timer) : action := fun w =>
  {| projectId := projectId w; cells := cells w; mounted := mounted w;
     window := window w;
     timers := <[id := {| delay := delay t; due := due t + delay t |}]> (timers w);
     next_timer := next_timer w;
     pending := pending w; next_request := next_request w;
     log := log w ++ [Fired id (due t)] |}.

(** The timer [id] runs its callback, if it is still live. *)
Definition fire (id : nat) : action := fun w =>
  match timers w !! id with
  | Some t => (reschedule id t >>> poll_tick id) w
  | None => w
  end.

(** Request [rid] is settled; [b] is the browser as the response side of
    the API client left it. *)
Definition settled (rid : nat) (b : browser) : action := fun w =>
  {| projectId := projectId w; cells := cells w; mounted := mounted w;
     window := b; timers := timers w; next_timer := next_timer w;
     pending := base.delete rid (pending w);
     next_request := next_request w; log := log w |}.

(** The reply to request [rid] arrives: the API client settles it (its
    response interceptor may touch the browser), then the suspended
    function goes on. *)
Definition deliver (rid : nat) (rp : reply) : action := fun w =>
  match pending w !! rid with
  | Some site =>
      let '(b1, p) := receive (window w) rp in
      let '(b2, d) := return_data b1 p in
      match site with
      | InStartAnalysis => (settled rid b2 >>> startAnalysis_settled d) w
      | InPoll interval => (settled rid b2 >>> poll_settled interval d) w
      | InFetchResults => (settled rid b2 >>> fetchResults_settled d) w
      end
  | None => w
  end.

(** Teardown of the owning view.  The effect of the hook returns no
    cleanup, so nothing of the hook runs. *)
Definition unmount : action := fun w =>
  {| projectId := projectId w; cells := cells w; mounted := false;
     window := window w; timers := timers w; next_timer := next_timer w;
     pending := pending w; next_request := next_request w; log := log w |}.

Inductive event :=
  | StartAnalysis                      (* the view calls startAnalysis() *)
  | Refetch                            (* the view calls refetch() *)
  | Tick (id : nat)                    (* the timer [id] is due *)
  | Reply (rid : nat) (rp : reply)     (* the backend answers request [rid] *)
  | Unmount.                           (* the view is torn down *)

(** One event.  The handlers [startAnalysis] and [refetch] are reachable
    through the mounted view only; timers and replies do not care. *)
Definition step (w : world) (ev : event) : world :=
  match ev with
  | StartAnalysis => if mounted w then startAnalysis w else w
  | Refetch => if mounted w then fetchResults w else w
  | Tick id => fire id w
  | Reply rid rp => deliver rid rp w
  | Unmount => unmount w
  end.

Definition run (w : world) (evs : list event) : world := fold_left step evs w.

(** First render and the effect [useEffect(..., [projectId])]. *)
Definition mount (pid : string) (b : browser) : world :=
  let w :=
    {| projectId := pid;
       cells := {| analysis := VNull; status := VStr "not_started";
                   loading := false; error := VNull |};
       mounted := true; window := b;
       timers := ∅; next_timer := 0%nat;
       pending := ∅; next_request := 0%nat; log := [] |} in
  if truthy (VStr pid) then fetchResults w else w.

(** Observations on the log. *)
Definition is_poll (i : nat) (e : effect) : bool :=
  match e with
  | Http _ (InPoll j) _ => bool_decide (i = j)
  | _ => false
  end.

(** The status requests issued by the loop of timer [i]. *)
Definition polls_of (i : nat) (l : list effect) : list effect :=
  List.filter (is_poll i) l.

(** The times at which the callback of timer [i] ran. *)
Definition fire_times (i : nat) (l : list effect) : list Z :=
  omap (fun e => match e with
                 | Fired j t => if bool_decide (i = j) then Some t else None
                 | _ => None
                 end) l.

(** The backend's reply is a successful one reporting [completed]. *)
Definition reports_completed (rp : reply) : bool :=
  match settle rp with
  | Fulfilled r =>
      match get_prop (response_data r) "status" with
      | Some s => is_completed s
      | None => false
      end
  | Rejected _ => false
  end.

(** The request failed: axios rejects it. *)
Definition request_failed (rp : reply) : bool :=
  match settle rp with
  | Fulfilled _ => false
  | Rejected _ => true
  end.

(** The values of the status enumeration and its intended transitions. *)
Definition status_enum (v : jsval) : Prop :=
  v = VStr "not_started" ∨ v = VStr "processing" ∨ v = VStr "completed".

Definition enum_transition (a b : jsval) : Prop :=
  a = b
  ∨ (a = VStr "not_started" ∧ b = VStr "processing")
  ∨ (a = VStr "processing" ∧ b = VStr "completed").

(** Every status response that reaches the poller in [evs], starting from
    [w], reports a value of the enumeration. *)
Fixpoint reports_within (w : world) (evs : list event) : Prop :=
  match evs with
  | [] => True
  | ev :: rest =>
      match ev with
      | Reply rid rp =>
          match pending w !! rid, settle rp with
          | Some (InPoll _), Fulfilled r =>
              ∀ s, get_prop (response_data r) "status" = Some s → status_enum s
          | _, _ => True
          end
      | _ => True
      end ∧ reports_within (step w ev) rest
  end.

(** Invariants of the runs of the hook. *)

(** Timer ids at or above the counter are unused, and the loops that
    in-flight status requests belong to have ids below it. *)
Definition ids_fresh (w : world) : Prop :=
  (∀ i, (next_timer w ≤ i)%nat → timers w !! i = None)
  ∧ (∀ rid i, pending w !! rid = Some (InPoll i) → (i < next_timer w)%nat).

(** Timer [i] was registered and is gone. *)
Definition cancelled (i : nat) (w : world) : Prop :=
  timers w !! i = None ∧ (i < next_timer w)%nat.

(** The first [n] due times of a polling timer. *)
Definition schedule (n : nat) : list Z :=
  (fun k : nat => POLL_MS * Z.of_nat (S k)) <$> seq 0 n.

(** Timer [i] has run on schedule so far and, if live, is due next at the
    following point of the schedule. *)
Definition paced (i : nat) (w : world) : Prop :=
  ∃ n : nat,
    fire_times i (log w) = schedule n
    ∧ (∀ t, timers w !! i = Some t →
            delay t = POLL_MS ∧ due t = POLL_MS * Z.of_nat (S n))
    ∧ ((next_timer w ≤ i)%nat → n = 0%nat).

End useAnalysis.

(** ** src/App.jsx *)

Module App.

(** What a route element renders. *)
Inductive page := Home | Login | Register | Dashboard.

Inductive view :=
  | Spinner
  | Page (p : page)
  | NavigateTo (path : string).

(** Protected Route Component *)
Definition ProtectedRoute (ctx : AuthContext.state) (children : view) : view :=
  if AuthContext.loading ctx then Spinner
  else if AuthContext.isAuthenticated ctx then children
  else NavigateTo "/login".

(** Public Route (redirect if authenticated) *)
Definition PublicRoute (ctx : AuthContext.state) (children : view) : view :=
  if AuthContext.loading ctx then Spinner
  else if negb (AuthContext.isAuthenticated ctx) then children
  else NavigateTo "/dashboard".

(** The [Route] elements of [Routes], in the order of the table. *)
Inductive route := RHome | RLogin | RRegister | RDashboard | RCatchAll.

Definition element (r : route) (ctx : AuthContext.state) : view :=
  match r with
  | RHome => Page Home
  | RLogin => PublicRoute ctx (Page Login)
  | RRegister => PublicRoute ctx (Page Register)
  | RDashboard => ProtectedRoute ctx (Page Dashboard)
  | RCatchAll => NavigateTo "/"
  end.

(** The route of a path written as in the table; any other path is taken
    by the catch-all.  The router also accepts the paths of the table in
    another letter case or with a trailing slash; this function is meant
    for the literal targets of [Navigate] ("/login", "/dashboard", "/"),
    where it agrees with the router. *)
Definition Routes (path : string) : route :=
  if bool_decide (path = "/") then RHome
  else if bool_decide (path = "/login") then RLogin
  else if bool_decide (path = "/register") then RRegister
  else if bool_decide (path = "/dashboard") then RDashboard
  else RCatchAll.

End App.

(** ** src/utils/helpers.js *)

Module helpers.

(** A JavaScript number: the finite ones are rationals. *)
Inductive number :=
  | Finite (q : Q)
  | NaN
  | PosInfinity
  | NegInfinity.

(** [x >= k] for a finite constant [k] *)
Definition ge (x : number) (k : Q) : bool :=
  match x with
  | Finite q => Qle_bool k q
  | PosInfinity => true
  | NaN | NegInfinity => false
  end.

(** [n <= x] for a string length [n] *)
Definition length_le (n : nat) (x : number) : bool :=
  match x with
  | Finite q => Qle_bool (inject_Z (Z.of_nat n)) q
  | PosInfinity => true
  | NaN | NegInfinity => false
  end.

Definition getQualityColor (score : number) : string :=
  if ge score (inject_Z 90) then "text-green-600"
  else if ge score (inject_Z 70) then "text-blue-600"
  else if ge score (inject_Z 50) then "text-yellow-600"
  else "text-red-600".

Definition getQualityLabel (score : number) : string :=
  if ge score (inject_Z 90) then "Excellent"
  else if ge score (inject_Z 70) then "Good"
  else if ge score (inject_Z 50) then "Fair"
  else "Poor".

(** [text.substring(0, x)] where [x] is not above the length: the end is
    truncated to an integer and clamped at 0; [NaN] counts as 0. *)
Definition substring_to (x : number) (text : string) : string :=
  match x with
  | Finite q => String.substring 0 (Z.to_nat (Qfloor q)) text
  | PosInfinity => text
  | NaN | NegInfinity => ""
  end.

(** [truncateText(text, maxLength = 50)]; [None] is an omitted argument. *)
Definition truncateText (text : string) (maxLength : option number) : string :=
  let maxLength := default (Finite (inject_Z 50)) maxLength in
  if length_le (String.length text) maxLength then text
  else substring_to maxLength text +:+ "...".

(** The order of the quality labels, best last. *)
Definition rank (label : string) : nat :=
  if bool_decide (label = "Excellent") then 3
  else if bool_decide (label = "Good") then 2
  else if bool_decide (label = "Fair") then 1
  else 0.

(** [x <= y] on numbers, [NaN] unordered. *)
Definition le (x y : number) : Prop :=
  match x, y with
  | NaN, _ | _, NaN => False
  | NegInfinity, _ => True
  | _, PosInfinity => True
  | Finite p, Finite q => (p <= q)%Q
  | _, _ => False
  end.

End helpers.

(** ** Further invariants of the runs of the analysis hook *)

(** The ids of the requests in flight are below the counter. *)
Definition requests_bounded (w : useAnalysis.world) : Prop :=
  ∀ rid site, useAnalysis.pending w !! rid = Some site →
              (rid < useAnalysis.next_request w)%nat.

(** The request is one of the three calls of [analysisService] for the
    project [pid]. *)
Definition analysis_request (pid : string) (req : api.request) : Prop :=
  api.data req = api.NoBody
  ∧ ((api.method req = api.POST ∧ api.url req = "/analysis/run/" +:+ pid)
     ∨ (api.method req = api.GET ∧ api.url req = "/analysis/status/" +:+ pid)
     ∨ (api.method req = api.GET ∧ api.url req = "/analysis/results/" +:+ pid)).

(** Every request of the log is an [analysis_request] for [pid]. *)
Definition confined (pid : string) (l : list useAnalysis.effect) : Prop :=
  Forall (fun e => match e with
                   | useAnalysis.Http _ _ req => analysis_request pid req
                   | _ => True
                   end) l.

(** The browser [b'] is [b] up to the session teardown of the response
    interceptor: the token may be gone and [/login] may have been
    assigned some times; nothing else differs. *)
Definition torn_down_at_most (b b' : browser) : Prop :=
  (localStorage b' = localStorage b
   ∨ localStorage b' = base.delete "token" (localStorage b))
  ∧ ∃ n : nat, navigations b' = navigations b ++ replicate n "/login".

(** * Sample inputs *)

Definition signed_out : browser :=
  {| localStorage := ∅; href := "/login"; navigations := [] |}.

Definition signed_in : browser :=
  {| localStorage := {[ "token" := "t0k3n" ]}; href := "/dashboard";
     navigations := [] |}.

Definition ok (v : jsval) : api.reply :=
  api.Replied {| api.status := 200; api.response_data := v |}.

Definition unauthorized : api.response :=
  {| api.status := 401;
     api.response_data := VObj [("detail", VStr "Not authenticated")] |}.

Definition sample_credentials : jsval :=
  VObj [("username", VStr "ada"); ("password", VStr "correct horse")].

Definition short_password_form : Register.state :=
  {| Register.form :=
       {| Register.username := "ada"; Register.email := "ada@example.org";
          Register.full_name := "Ada"; Register.password := "short";
          Register.confirmPassword := "short" |};
     Register.error := VStr ""; Register.success := false;
     Register.loading := false |}.


Definition started : jsval := VObj [("message", VStr "Analysis started")].

Definition reported (s : string) : api.reply := ok (VObj [("status", VStr s)]).

(** The hook of project 7 after [startAnalysis] succeeded and the timer ran
    once: requests 0 (results, from the mount) and 2 (status) are in
    flight, timer 0 is live. *)
Definition polling : useAnalysis.world :=
  useAnalysis.run (useAnalysis.mount "7" signed_in)
    [useAnalysis.StartAnalysis; useAnalysis.Reply 1 (ok started); useAnalysis.Tick 0].

(** * Properties *)

Import api.

(** ** The API client *)

Lemma request_interceptor_method b cfg :
  method (request_interceptor b cfg) = method cfg.
Proof.
  unfold request_interceptor.
  destruct (getItem b "token") as [t|]; [|done].
  by destruct (truthy_item (Some t)).
Qed.

Lemma request_interceptor_url b cfg :
  url (request_interceptor b cfg) = url cfg.
Proof.
  unfold request_interceptor.
  destruct (getItem b "token") as [t|]; [|done].
  by destruct (truthy_item (Some t)).
Qed.

Lemma request_interceptor_data b cfg :
  data (request_interceptor b cfg) = data cfg.
Proof.
  unfold request_interceptor.
  destruct (getItem b "token") as [t|]; [|done].
  by destruct (truthy_item (Some t)).
Qed.

Lemma request_interceptor_other_header b cfg (h : string) :
  h ≠ "Authorization" →
  headers (request_interceptor b cfg) !! h = headers cfg !! h.
Proof.
  intros Hne. unfold request_interceptor.
  destruct (getItem b "token") as [t|]; [|done].
  destruct (truthy_item (Some t)); [|done].
  simpl. by rewrite lookup_insert_ne.
Qed.

Lemma request_interceptor_signed_out b cfg :
  truthy_item (getItem b "token") = false → request_interceptor b cfg = cfg.
Proof.
  unfold request_interceptor. intros H.
  destruct (getItem b "token") as [t|]; [|done].
  by rewrite H.
Qed.

Lemma settle_unauthorized (r : response) :
  status r = 401 →
  settle (Replied r) =
    Rejected (AxiosError "Request failed with status code 401" (Some r)).
Proof. intros H. unfold settle. by rewrite H. Qed.

Lemma receive_fulfilled b rp r :
  settle rp = Fulfilled r → receive b rp = (b, Fulfilled r).
Proof. intros H. unfold receive. by rewrite H. Qed.

Lemma collect_from (files : list file) (acc : list (string * file)) :
  fold_left (fun formData f => projectService.append formData "files" f) files acc
  = acc ++ ((fun f => ("files", f)) <$> files).
Proof.
  revert acc. induction files as [|f files IH]; intros acc; simpl.
  - by rewrite app_nil_r.
  - rewrite IH. unfold projectService.append. by rewrite <- app_assoc.
Qed.

(** C1.  A reply with status 401 to any request of the shared client makes
    the response interceptor remove the stored token and assign the login
    path to the location exactly once; the caller still sees the rejection.
    The client's response side does not look at the endpoint, and the same
    holds for every request the analysis hook has in flight. *)
Theorem unauthorized_clears_token_redirects_once (b : browser) (r : response) :
  status r = 401 →
  getItem (receive b (Replied r)).1 "token" = None
  ∧ navigations (receive b (Replied r)).1 = navigations b ++ ["/login"]
  ∧ href (receive b (Replied r)).1 = "/login"
  ∧ (∃ msg, (receive b (Replied r)).2 = Rejected (AxiosError msg (Some r)))
  ∧ ∀ (w : useAnalysis.world) (rid : nat) (site : useAnalysis.awaiting),
      useAnalysis.pending w !! rid = Some site →
      let w' := useAnalysis.step w (useAnalysis.Reply rid (Replied r)) in
      getItem (useAnalysis.window w') "token" = None
      ∧ navigations (useAnalysis.window w')
        = navigations (useAnalysis.window w) ++ ["/login"].
Proof.
  intros H401.
  assert (Hrecv : ∀ b0, receive b0 (Replied r)
            = (set_href (removeItem b0 "token") "/login",
               Rejected (AxiosError "Request failed with status code 401" (Some r)))).
  { intros b0. unfold receive. rewrite (settle_unauthorized r H401).
    unfold response_interceptor. simpl. by rewrite H401. }
  rewrite Hrecv. simpl.
  split; [unfold getItem; simpl; apply lookup_delete_eq|].
  split; [done|]. split; [done|]. split; [by eexists|].
  intros w rid site Hpend. simpl. unfold useAnalysis.deliver.
  rewrite Hpend, Hrecv. simpl.
  destruct site; simpl; (split; [|done]);
    unfold getItem; simpl; apply lookup_delete_eq.
Qed.

Lemma unauthorized_clears_token_redirects_once_witness :
  status unauthorized = 401
  ∧ getItem (receive signed_in (Replied unauthorized)).1 "token" = None
  ∧ navigations (receive signed_in (Replied unauthorized)).1 = ["/login"].
Proof.
  split; [reflexivity|].
  destruct (unauthorized_clears_token_redirects_once signed_in unauthorized eq_refl)
    as (Htok & Hnav & _).
  split; [exact Htok | exact Hnav].
Defined.

(** C6 as stated fails: a request sent while no token is stored, such as
    the login request itself, carries no [Authorization] header. *)
Lemma signed_out_request_has_no_authorization :
  getItem signed_out "token" = None
  ∧ headers (wire (authService.login signed_out sample_credentials))
      !! "Authorization" = None.
Proof. split; vm_compute; reflexivity. Qed.

(** C6, amended.  While a non-empty token is stored, every request sent
    through the shared client carries [Authorization: Bearer <token>] with
    that token, whatever its method, path, body and own headers. *)
Theorem stored_token_is_attached (b : browser) (token : string)
    (m : http_method) (u : string) (d : body) (own : gmap string string) :
  getItem b "token" = Some token →
  token ≠ "" →
  headers (send b m u d own) !! "Authorization" = Some ("Bearer " +:+ token)
  ∧ method (send b m u d own) = m
  ∧ url (send b m u d own) = u
  ∧ data (send b m u d own) = d.
Proof.
  intros Hget Hne. unfold send.
  rewrite request_interceptor_method, request_interceptor_url,
    request_interceptor_data. simpl.
  split; [|done].
  unfold request_interceptor. rewrite Hget. simpl.
  rewrite bool_decide_eq_false_2 by done. simpl.
  apply lookup_insert_eq.
Qed.

Lemma stored_token_is_attached_witness :
  getItem signed_in "token" = Some "t0k3n"
  ∧ "t0k3n" ≠ ""
  ∧ headers (get signed_in "/projects") !! "Authorization" = Some "Bearer t0k3n".
Proof.
  split; [reflexivity|]. split; [discriminate|].
  exact (proj1 (stored_token_is_attached signed_in "t0k3n" GET "/projects" NoBody ∅
                  eq_refl ltac:(discriminate))).
Defined.

(** C9.  [uploadFiles] builds one multipart POST to the project's upload
    path for every list of files: each file is appended, in order, under
    the name [files], and the empty list gives the same request with an
    empty form. *)
Theorem uploadFiles_forwards_every_selection (b : browser) (projectId : string)
    (files : list file) :
  let req := wire (projectService.uploadFiles b projectId files) in
  method req = POST
  ∧ url req = "/projects/" +:+ projectId +:+ "/upload"
  ∧ data req = FormData ((fun f => ("files", f)) <$> files)
  ∧ headers req !! "Content-Type" = Some "multipart/form-data"
  ∧ data (wire (projectService.uploadFiles b projectId [])) = FormData [].
Proof.
  simpl. unfold post, send.
  rewrite request_interceptor_method, !request_interceptor_url,
    !request_interceptor_data. simpl.
  rewrite request_interceptor_other_header by discriminate. simpl.
  unfold projectService.collect. rewrite collect_from. simpl.
  repeat split.
Qed.

(** C10 as stated fails: a login that succeeds with an empty [access_token]
    stores the empty string, and [isAuthenticated] is then false. *)
Lemma empty_token_login_is_not_authenticated :
  let '(b', p) :=
    complete (authService.login signed_out sample_credentials) signed_out
      (ok (VObj [("access_token", VStr ""); ("token_type", VStr "bearer")])) in
  p = Fulfilled (VObj [("access_token", VStr ""); ("token_type", VStr "bearer")])
  ∧ getItem b' "token" = Some ""
  ∧ authService.isAuthenticated b' = false.
Proof. vm_compute. repeat split. Qed.

(** C10, amended.  A login that the backend answers successfully with a
    non-empty string [access_token] stores exactly that token before it
    resolves with the body, so [isAuthenticated] is true right after. *)
Theorem login_stores_token (b : browser) (credentials : jsval) (r : response)
    (token : string) :
  validateStatus (status r) = true →
  get_prop (response_data r) "access_token" = Some (VStr token) →
  token ≠ "" →
  let out := complete (authService.login b credentials) b (Replied r) in
  out.2 = Fulfilled (response_data r)
  ∧ getItem out.1 "token" = Some token
  ∧ authService.isAuthenticated out.1 = true.
Proof.
  intros Hok Htok Hne. simpl.
  unfold complete. rewrite (receive_fulfilled b (Replied r) r).
  2:{ unfold settle. by rewrite Hok. }
  simpl. rewrite Htok. simpl.
  unfold authService.isAuthenticated, getItem. simpl.
  rewrite lookup_insert_eq. simpl.
  rewrite bool_decide_eq_false_2 by done. done.
Qed.

Lemma login_stores_token_witness :
  let r := {| status := 200;
              response_data := VObj [("access_token", VStr "eyJhbGciOi");
                                     ("token_type", VStr "bearer")] |} in
  let out := complete (authService.login signed_out sample_credentials)
               signed_out (Replied r) in
  validateStatus (status r) = true
  ∧ getItem out.1 "token" = Some "eyJhbGciOi"
  ∧ authService.isAuthenticated out.1 = true.
Proof.
  simpl. split; [reflexivity|].
  exact (proj2 (login_stores_token signed_out sample_credentials
                  {| status := 200;
                     response_data := VObj [("access_token", VStr "eyJhbGciOi");
                                            ("token_type", VStr "bearer")] |}
                  "eyJhbGciOi" eq_refl eq_refl ltac:(discriminate))).
Defined.

(** ** The registration form *)

(** C5.  When the two passwords differ or the password is shorter than 8,
    [handleSubmit] sets an error message and returns: the only effect is
    [preventDefault], no request is made and [loading] stays as it was. *)
Theorem invalid_registration_is_not_sent (b : browser) (st : Register.state) :
  Register.password (Register.form st) ≠ Register.confirmPassword (Register.form st)
  ∨ (String.length (Register.password (Register.form st)) < 8)%nat →
  let out := Register.handleSubmit b st in
  Register.requests out.2 = []
  ∧ out.2 = [Register.PreventDefault]
  ∧ (Register.error out.1 = VStr "Passwords do not match"
     ∨ Register.error out.1 = VStr "Password must be at least 8 characters")
  ∧ Register.loading out.1 = Register.loading st
  ∧ Register.success out.1 = Register.success st.
Proof.
  intros Hbad. simpl. unfold Register.handleSubmit. simpl.
  destruct (decide (Register.password (Register.form st)
                    = Register.confirmPassword (Register.form st))) as [Heq|Hneq].
  - rewrite bool_decide_eq_true_2 by done. simpl.
    destruct Hbad as [Hbad|Hshort]; [done|].
    rewrite bool_decide_eq_true_2 by done. simpl. auto 10.
  - rewrite bool_decide_eq_false_2 by done. simpl. auto 10.
Qed.

Lemma invalid_registration_is_not_sent_witness :
  (String.length (Register.password (Register.form short_password_form)) < 8)%nat
  ∧ Register.requests (Register.handleSubmit signed_out short_password_form).2 = [].
Proof.
  split; [vm_compute; lia|].
  refine (proj1 (invalid_registration_is_not_sent signed_out short_password_form _)).
  right. vm_compute. lia.
Defined.


(** ** The analysis hook *)

Import useAnalysis.

Ltac unfold_hook :=
  unfold step, startAnalysis, fetchResults, deliver, fire, unmount, poll_tick,
    poll_settled, poll_catch, startAnalysis_settled, fetchResults_settled,
    pollStatus, then_, skip, setStatus, setError, setLoading, setAnalysis,
    with_cells, setInterval, clearInterval, request, reschedule, settled in *.

Ltac step_cases := unfold_hook; repeat case_match; simpl in *.

Lemma response_interceptor_rejects b e :
  (response_interceptor b e).2 = Rejected e.
Proof.
  unfold response_interceptor.
  destruct (error_response e) as [r|]; [|done].
  by destruct (api.status r =? 401).
Qed.

Lemma receive_settle b rp : (receive b rp).2 = settle rp.
Proof.
  unfold receive. destruct (settle rp); [done|].
  apply response_interceptor_rejects.
Qed.

Lemma receive_rejected b rp e :
  settle rp = Rejected e → ∃ b', receive b rp = (b', Rejected e).
Proof.
  intros H. pose proof (receive_settle b rp) as Hs. rewrite H in Hs.
  destruct (receive b rp) as [b' p]. simpl in Hs. subst. by eexists.
Qed.

(** The three ways a reply to a status request of loop [i] is handled. *)
Lemma deliver_poll_rejected w rid i rp e :
  pending w !! rid = Some (InPoll i) →
  settle rp = Rejected e →
  ∃ b', step w (Reply rid rp) = (settled rid b' >>> poll_catch i e) w.
Proof.
  intros Hp Hs. destruct (receive_rejected (window w) rp e Hs) as [b' Hr].
  exists b'. simpl. unfold deliver. by rewrite Hp, Hr.
Qed.

Lemma deliver_poll_fulfilled w rid i rp r :
  pending w !! rid = Some (InPoll i) →
  settle rp = Fulfilled r →
  step w (Reply rid rp)
  = (settled rid (window w) >>> poll_settled i (Fulfilled (response_data r))) w.
Proof.
  intros Hp Hs. simpl. unfold deliver.
  by rewrite Hp, (receive_fulfilled _ _ _ Hs).
Qed.

Lemma reports_completed_inv rp :
  reports_completed rp = true →
  ∃ r s, settle rp = Fulfilled r
         ∧ get_prop (response_data r) "status" = Some s
         ∧ is_completed s = true.
Proof.
  unfold reports_completed. intros H.
  destruct (settle rp) as [r|] eqn:Hs; [|done].
  destruct (get_prop (response_data r) "status") as [s|] eqn:Hg; [|done].
  by exists r, s.
Qed.

Lemma request_failed_inv rp :
  request_failed rp = true → ∃ e, settle rp = Rejected e.
Proof.
  unfold request_failed. intros H. destruct (settle rp) as [|e] eqn:Hs; [done|].
  by exists e.
Qed.

(** The project of a hook instance never changes. *)
Lemma step_projectId w ev : projectId (step w ev) = projectId w.
Proof. destruct ev; step_cases; done. Qed.

Lemma run_cons w ev evs : run w (ev :: evs) = run (step w ev) evs.
Proof. reflexivity. Qed.

Lemma run_projectId evs : ∀ w, projectId (run w evs) = projectId w.
Proof.
  induction evs as [|ev evs IH]; intros w; [done|].
  by rewrite run_cons, IH, step_projectId.
Qed.

Lemma mount_projectId pid b : projectId (mount pid b) = pid.
Proof. unfold mount. by destruct (truthy (VStr pid)). Qed.


(** *** Failure of a status request *)

(** C7.  When a status request of the polling loop fails, the callback's
    [catch] puts the error's message into the [error] cell, drops
    [loading], and does not write the [status] cell: it keeps the value it
    had (it is not reset to [not_started]). *)
Theorem poll_failure_keeps_status (w : world) (rid i : nat) (rp : reply) :
  pending w !! rid = Some (InPoll i) →
  request_failed rp = true →
  let w' := step w (Reply rid rp) in
  useAnalysis.status (cells w') = useAnalysis.status (cells w)
  ∧ (∃ e, settle rp = Rejected e ∧ error (cells w') = VStr (message e))
  ∧ loading (cells w') = false
  ∧ analysis (cells w') = analysis (cells w).
Proof.
  intros Hp Hf. destruct (request_failed_inv rp Hf) as [e He].
  destruct (deliver_poll_rejected w rid i rp e Hp He) as [b' Hstep].
  cbv zeta. rewrite Hstep. unfold_hook. simpl.
  split; [done|]. split; [by exists e|done].
Qed.

Lemma poll_failure_keeps_status_witness :
  pending polling !! 2%nat = Some (InPoll 0)
  ∧ request_failed (NetworkError "Network Error") = true
  ∧ useAnalysis.status
      (cells (step polling (Reply 2 (NetworkError "Network Error"))))
    = VStr "processing"
  ∧ error (cells (step polling (Reply 2 (NetworkError "Network Error"))))
    = VStr "Network Error".
Proof.
  split; [vm_compute; reflexivity|]. split; [reflexivity|].
  destruct (poll_failure_keeps_status polling 2 0 (NetworkError "Network Error")
              ltac:(vm_compute; reflexivity) eq_refl)
    as (Hstatus & (e & He & Herr) & _).
  split.
  - rewrite Hstatus. vm_compute. reflexivity.
  - rewrite Herr. injection He as <-. reflexivity.
Defined.



Ltac map_cases :=
  repeat (rewrite lookup_insert in * || rewrite lookup_delete in * );
  repeat case_decide; simplify_eq.

Lemma mount_ids_fresh pid b : ids_fresh (mount pid b).
Proof.
  unfold mount. destruct (truthy (VStr pid)); unfold_hook;
    (split; simpl; [done|]); intros rid i H; map_cases; done.
Qed.

Lemma step_ids_fresh w ev : ids_fresh w → ids_fresh (step w ev).
Proof.
  intros [Ht Hp].
  destruct ev; step_cases;
    (split; simpl; [intros ? ? | intros ? ? ?]); map_cases;
    try done; try (by eauto with lia).
  all: try (by apply Ht; lia).
  all: try (by eapply Nat.lt_lt_succ_r, Hp).
  all: match goal with
       | H : timers ?w0 !! ?k = Some _ |- _ =>
           destruct (decide (next_timer w0 ≤ k)%nat) as [Hle|Hle];
           [apply Ht in Hle; congruence | lia]
       end.
Qed.

Lemma run_ids_fresh evs : ∀ w, ids_fresh w → ids_fresh (run w evs).
Proof.
  induction evs as [|ev evs IH]; intros w Hw; [done|].
  rewrite run_cons. by apply IH, step_ids_fresh.
Qed.

Lemma polls_of_app i l1 l2 : polls_of i (l1 ++ l2) = polls_of i l1 ++ polls_of i l2.
Proof. apply List.filter_app. Qed.

(** Once its timer is cancelled, a loop stays cancelled and issues no
    status request, whatever happens next. *)
Lemma step_cancelled i w ev :
  cancelled i w →
  cancelled i (step w ev) ∧ polls_of i (log (step w ev)) = polls_of i (log w).
Proof.
  intros [Hnone Hlt].
  destruct ev; step_cases; unfold cancelled; simpl;
    rewrite ?polls_of_app; simpl; rewrite ?app_nil_r;
    (split; [split|]); map_cases; try done; try lia.
  rewrite bool_decide_eq_false_2 by done. apply app_nil_r.
Qed.

Lemma run_cancelled i evs : ∀ w,
  cancelled i w →
  cancelled i (run w evs) ∧ polls_of i (log (run w evs)) = polls_of i (log w).
Proof.
  induction evs as [|ev evs IH]; intros w Hw; [done|].
  rewrite run_cons. destruct (step_cancelled i w ev Hw) as [Hc Hl].
  destruct (IH _ Hc) as [Hc' Hl']. split; [done|]. by rewrite Hl', Hl.
Qed.

(** A reply that ends the loop of timer [i] leaves it cancelled. *)
Lemma terminal_reply_cancels w rid i rp :
  ids_fresh w →
  pending w !! rid = Some (InPoll i) →
  reports_completed rp = true ∨ request_failed rp = true →
  cancelled i (step w (Reply rid rp))
  ∧ ClearInterval i ∈ drop (length (log w)) (log (step w (Reply rid rp))).
Proof.
  intros [Ht Hp] Hpend Hterm. pose proof (Hp _ _ Hpend) as Hlt.
  destruct Hterm as [Hc|Hf].
  - destruct (reports_completed_inv rp Hc) as (r & s & Hs & Hg & Hcomp).
    rewrite (deliver_poll_fulfilled w rid i rp r Hpend Hs).
    unfold_hook. simpl. rewrite Hg, Hcomp. unfold cancelled. simpl.
    split; [split; [apply lookup_delete_eq|done]|].
    rewrite <- app_assoc, drop_app_length. set_solver.
  - destruct (request_failed_inv rp Hf) as [e He].
    destruct (deliver_poll_rejected w rid i rp e Hpend He) as [b' Hstep].
    rewrite Hstep. unfold_hook. unfold cancelled. simpl.
    split; [split; [apply lookup_delete_eq|done]|].
    rewrite drop_app_length. set_solver.
Qed.

(** *** The loop stops *)

(** C2.  In every run of the hook, when a status request of the loop of
    timer [i] is answered with [completed], or fails, the callback cancels
    timer [i]; from then on the timer is gone and, whatever events follow,
    that loop issues no further status request. *)
Theorem poll_stops_after_completed_or_error (pid : string) (b : browser)
    (before : list event) (rid i : nat) (rp : reply) :
  let w := run (mount pid b) before in
  pending w !! rid = Some (InPoll i) →
  reports_completed rp = true ∨ request_failed rp = true →
  let w' := step w (Reply rid rp) in
  ClearInterval i ∈ drop (length (log w)) (log w')
  ∧ timers w' !! i = None
  ∧ ∀ after : list event,
      timers (run w' after) !! i = None
      ∧ polls_of i (log (run w' after)) = polls_of i (log w').
Proof.
  intros w Hpend Hterm w'.
  assert (Hfresh : ids_fresh w) by apply run_ids_fresh, mount_ids_fresh.
  destruct (terminal_reply_cancels w rid i rp Hfresh Hpend Hterm) as [Hc Hin].
  split; [done|]. split; [apply Hc|].
  intros after. destruct (run_cancelled i after w' Hc) as [[Hnone _] Hl].
  by split.
Qed.

Lemma poll_stops_after_completed_or_error_witness :
  pending polling !! 2%nat = Some (InPoll 0)
  ∧ reports_completed (reported "completed") = true
  ∧ timers (step polling (Reply 2 (reported "completed"))) !! 0%nat = None
  ∧ polls_of 0 (log (run (step polling (Reply 2 (reported "completed")))
                       [Tick 0; Tick 0; StartAnalysis; Tick 0]))
    = polls_of 0 (log (step polling (Reply 2 (reported "completed")))).
Proof.
  split; [vm_compute; reflexivity|]. split; [reflexivity|].
  destruct (poll_stops_after_completed_or_error "7" signed_in
              [StartAnalysis; Reply 1 (ok started); Tick 0] 2 0
              (reported "completed")
              ltac:(vm_compute; reflexivity) (or_introl eq_refl))
    as (_ & Hgone & Hafter).
  split; [exact Hgone|].
  exact (proj2 (Hafter [Tick 0; Tick 0; StartAnalysis; Tick 0])).
Defined.


Lemma fire_times_app i l1 l2 :
  fire_times i (l1 ++ l2) = fire_times i l1 ++ fire_times i l2.
Proof. apply omap_app. Qed.

Lemma schedule_S n : schedule (S n) = schedule n ++ [POLL_MS * Z.of_nat (S n)].
Proof. unfold schedule. by rewrite seq_S, fmap_app. Qed.

Lemma length_schedule n : length (schedule n) = n.
Proof. unfold schedule. by rewrite length_fmap, length_seq. Qed.

Lemma mount_paced i pid b : paced i (mount pid b).
Proof.
  exists 0%nat. unfold mount.
  destruct (truthy (VStr pid)); unfold_hook; simpl; done.
Qed.

Lemma step_paced i w ev : ids_fresh w → paced i w → paced i (step w ev).
Proof.
  intros [Ht Hp] (n & Hlog & Htimer & Hnew).
  destruct ev as [| |id|rid rp|].
  - exists n. step_cases; rewrite ?fire_times_app; simpl; rewrite ?app_nil_r; done.
  - exists n. step_cases; rewrite ?fire_times_app; simpl; rewrite ?app_nil_r; done.
  - simpl. unfold fire. destruct (timers w !! id) as [t|] eqn:Hid; [|by exists n].
    destruct (decide (i = id)) as [->|Hne].
    + exists (S n). destruct (Htimer t Hid) as [Hd Hdue].
      unfold_hook. simpl. rewrite <- app_assoc, fire_times_app. simpl.
      rewrite bool_decide_eq_true_2 by done. rewrite Hlog, Hdue, schedule_S.
      split; [done|]. split.
      * intros t'. rewrite lookup_insert_eq. intros [= <-]. simpl.
        split; [done|]. rewrite ?Hdue, ?Hd. unfold POLL_MS. lia.
      * intros Hle. apply Ht in Hle. congruence.
    + exists n. unfold_hook. simpl. rewrite <- app_assoc, fire_times_app. simpl.
      rewrite bool_decide_eq_false_2 by done. rewrite app_nil_r.
      split; [done|]. split; [|done].
      intros t'. rewrite lookup_insert_ne by done. apply Htimer.
  - exists n. step_cases; rewrite ?fire_times_app; simpl; rewrite ?app_nil_r;
      (split; [done|]); (split; [intros ?|intros ?]); map_cases;
      try done; try (by apply Htimer); try (by apply Hnew; lia).
    intros [= <-]. rewrite Hnew by lia. simpl. split; [done|]. unfold POLL_MS. lia.
  - exists n. step_cases; done.
Qed.

Lemma run_paced i evs : ∀ w, ids_fresh w → paced i w → paced i (run w evs).
Proof.
  induction evs as [|ev evs IH]; intros w Hf Hw; [done|].
  rewrite run_cons. apply IH; [by apply step_ids_fresh|by apply step_paced].
Qed.

(** What a tick of a live timer does. *)
Lemma fire_live w i t :
  timers w !! i = Some t →
  log (step w (Tick i))
  = log w ++ [Fired i (due t);
              Http (next_request w) (InPoll i)
                (wire (analysisService.getAnalysisStatus (window w) (projectId w)))]
  ∧ timers (step w (Tick i)) !! i
    = Some {| delay := delay t; due := due t + delay t |}.
Proof.
  intros H. simpl. unfold fire. rewrite H. unfold_hook. simpl.
  rewrite <- app_assoc. split; [done|]. apply lookup_insert_eq.
Qed.

(** What the callback does on a reply reporting [completed]. *)
Lemma completed_reply_fetches w rid i rp :
  pending w !! rid = Some (InPoll i) →
  reports_completed rp = true →
  log (step w (Reply rid rp))
  = log w ++ [ClearInterval i;
              Http (next_request w) InFetchResults
                (wire (analysisService.getAnalysisResults (window w) (projectId w)))]
  ∧ timers (step w (Reply rid rp)) !! i = None
  ∧ useAnalysis.status (cells (step w (Reply rid rp))) = VStr "completed".
Proof.
  intros Hpend Hc.
  destruct (reports_completed_inv rp Hc) as (r & s & Hs & Hg & Hcomp).
  rewrite (deliver_poll_fulfilled w rid i rp r Hpend Hs).
  unfold_hook. simpl. rewrite Hg, Hcomp. simpl.
  rewrite <- app_assoc. split; [done|]. split; [apply lookup_delete_eq|].
  destruct s; try done. simpl in Hcomp. by apply bool_decide_eq_true_1 in Hcomp as ->.
Qed.

(** *** Pace of the loop and the fetch at the end *)

(** C3.  In every run of the hook: the callback of a polling timer runs at
    3000, 6000, 9000, ... ms after [pollStatus] registered it, each live
    timer has period 3000, and each run of the callback issues exactly one
    status request; and when the reply to such a request reports
    [completed], the callback cancels its timer and then issues exactly one
    request for the results, and nothing else. *)
Theorem poll_every_3000_then_one_fetch (pid : string) (b : browser)
    (evs : list event) :
  let w := run (mount pid b) evs in
  POLL_MS = 3000
  ∧ (∀ i, fire_times i (log w)
          = (fun k : nat => 3000 * Z.of_nat (S k))
              <$> seq 0 (length (fire_times i (log w))))
  ∧ (∀ i t, timers w !! i = Some t →
       delay t = 3000
       ∧ log (step w (Tick i))
         = log w ++ [Fired i (due t);
                     Http (next_request w) (InPoll i)
                       (wire (analysisService.getAnalysisStatus (window w) pid))])
  ∧ (∀ rid i rp,
       pending w !! rid = Some (InPoll i) →
       reports_completed rp = true →
       log (step w (Reply rid rp))
       = log w ++ [ClearInterval i;
                   Http (next_request w) InFetchResults
                     (wire (analysisService.getAnalysisResults (window w) pid))]
       ∧ timers (step w (Reply rid rp)) !! i = None).
Proof.
  intros w.
  assert (Hfresh : ids_fresh (mount pid b)) by apply mount_ids_fresh.
  assert (Hpid : projectId w = pid).
  { unfold w. by rewrite run_projectId, mount_projectId. }
  split; [done|]. split; [|split].
  - intros i.
    destruct (run_paced i evs _ Hfresh (mount_paced i pid b)) as (n & Hlog & _).
    fold w in Hlog. rewrite Hlog, length_schedule. done.
  - intros i t Hlive.
    destruct (run_paced i evs _ Hfresh (mount_paced i pid b)) as (n & _ & Ht & _).
    fold w in Ht. destruct (Ht t Hlive) as [Hd _]. split; [done|].
    rewrite <- Hpid. by apply fire_live.
  - intros rid i rp Hpend Hc. rewrite <- Hpid.
    destruct (completed_reply_fetches w rid i rp Hpend Hc) as (Hl & Hn & _).
    by split.
Qed.

Lemma poll_every_3000_then_one_fetch_witness :
  fire_times 0 (log (step polling (Tick 0))) = [3000; 6000]
  ∧ pending polling !! 2%nat = Some (InPoll 0)
  ∧ reports_completed (reported "completed") = true
  ∧ log (step polling (Reply 2 (reported "completed")))
    = log polling
      ++ [ClearInterval 0;
          Http 3 InFetchResults
            (wire (analysisService.getAnalysisResults signed_in "7"))].
Proof.
  split.
  - destruct (poll_every_3000_then_one_fetch "7" signed_in
                [StartAnalysis; Reply 1 (ok started); Tick 0; Tick 0])
      as (_ & Hpace & _).
    exact (eq_trans (Hpace 0%nat) ltac:(vm_compute; reflexivity)).
  - split; [vm_compute; reflexivity|]. split; [reflexivity|].
    destruct (poll_every_3000_then_one_fetch "7" signed_in
                [StartAnalysis; Reply 1 (ok started); Tick 0])
      as (_ & _ & _ & Hfetch).
    exact (proj1 (Hfetch 2%nat 0%nat (reported "completed")
                    ltac:(vm_compute; reflexivity) eq_refl)).
Defined.


(** How one event can change the [status] cell. *)
Lemma step_status w ev :
  useAnalysis.status (cells (step w ev)) = useAnalysis.status (cells w)
  ∨ (useAnalysis.status (cells (step w ev)) = VStr "processing"
     ∧ ∃ rid rp, ev = Reply rid rp
                 ∧ pending w !! rid = Some InStartAnalysis
                 ∧ request_failed rp = false)
  ∨ (∃ rid i rp r s,
       ev = Reply rid rp
       ∧ pending w !! rid = Some (InPoll i)
       ∧ settle rp = Fulfilled r
       ∧ get_prop (response_data r) "status" = Some s
       ∧ useAnalysis.status (cells (step w ev)) = s).
Proof.
  destruct ev as [| |id|rid rp|]; try (left; step_cases; done).
  simpl. unfold deliver.
  destruct (pending w !! rid) as [site|] eqn:Hpend; [|by left].
  destruct (settle rp) as [r|e] eqn:Hs.
  - rewrite (receive_fulfilled _ _ _ Hs). simpl. destruct site.
    + right; left. split; [done|]. exists rid, rp.
      unfold request_failed. by rewrite Hs.
    + unfold_hook.
      destruct (get_prop (response_data r) "status") as [s|] eqn:Hg; [|by left].
      right; right. exists rid, interval, rp, r, s.
      repeat (split; [done|]). by destruct (is_completed s).
    + by left.
  - destruct (receive_rejected (window w) rp e Hs) as [b' ->]. simpl.
    left. by destruct site.
Qed.

Lemma run_status_enum evs : ∀ w,
  status_enum (useAnalysis.status (cells w)) →
  reports_within w evs →
  status_enum (useAnalysis.status (cells (run w evs))).
Proof.
  induction evs as [|ev evs IH]; intros w Hw Hrep; [done|].
  rewrite run_cons. destruct Hrep as [Hhead Hrest]. apply IH; [|done].
  destruct (step_status w ev)
    as [->|[[-> _]|(rid & i & rp & r & s & -> & Hpend & Hs & Hg & ->)]].
  - done.
  - right; by left.
  - rewrite Hpend, Hs in Hhead. by apply Hhead.
Qed.

(** *** Values of the status cell *)

(** C8 as stated fails: the hook stores whatever the backend reports, here
    [failed], which is outside the enumeration; and a second
    [startAnalysis] takes the status from [completed] back to
    [processing]. *)
Lemma status_leaves_enumeration :
  let start := [StartAnalysis; Reply 1 (ok started); Tick 0] in
  let failed := run (mount "7" signed_in)
                  (start ++ [Reply 2 (reported "failed")]) in
  let done_ := run (mount "7" signed_in)
                 (start ++ [Reply 2 (reported "completed")]) in
  let again := run done_ [StartAnalysis; Reply 4 (ok started)] in
  useAnalysis.status (cells failed) = VStr "failed"
  ∧ ¬ status_enum (useAnalysis.status (cells failed))
  ∧ useAnalysis.status (cells done_) = VStr "completed"
  ∧ useAnalysis.status (cells again) = VStr "processing"
  ∧ ¬ enum_transition (useAnalysis.status (cells done_))
        (useAnalysis.status (cells again)).
Proof.
  vm_compute. repeat split; try reflexivity.
  - intros [H|[H|H]]; discriminate H.
  - intros [H|[[H _]|[H _]]]; discriminate H.
Qed.

Lemma start_success_sets_processing w rid rp :
  pending w !! rid = Some InStartAnalysis →
  request_failed rp = false →
  useAnalysis.status (cells (step w (Reply rid rp))) = VStr "processing".
Proof.
  intros Hp Hok. unfold request_failed in Hok.
  destruct (settle rp) as [r|e] eqn:Hs; [|done].
  simpl. unfold deliver. rewrite Hp, (receive_fulfilled _ _ _ Hs). done.
Qed.

Lemma status_reply_sets_status w rid i rp r s :
  pending w !! rid = Some (InPoll i) →
  settle rp = Fulfilled r →
  get_prop (response_data r) "status" = Some s →
  useAnalysis.status (cells (step w (Reply rid rp))) = s.
Proof.
  intros Hp Hs Hg. rewrite (deliver_poll_fulfilled w rid i rp r Hp Hs).
  unfold_hook. simpl. rewrite Hg. by destruct (is_completed s).
Qed.

(** C8, amended.  The status cell starts at [not_started].  Whenever a
    [startAnalysis] call succeeds it is set to [processing], from whatever
    value it had; whenever a status request succeeds it is set to the
    [status] field of the body, whatever that is; and no other event
    changes it.  So as long as every status reply reports a value of the
    enumeration, the cell holds a value of the enumeration. *)
Theorem status_mirrors_backend (pid : string) (b : browser) (evs : list event) :
  reports_within (mount pid b) evs →
  useAnalysis.status (cells (mount pid b)) = VStr "not_started"
  ∧ status_enum (useAnalysis.status (cells (run (mount pid b) evs)))
  ∧ (∀ (w : world) (rid : nat) (rp : reply),
       pending w !! rid = Some InStartAnalysis →
       request_failed rp = false →
       useAnalysis.status (cells (step w (Reply rid rp))) = VStr "processing")
  ∧ (∀ (w : world) (rid i : nat) (rp : reply) (r : response) (s : jsval),
       pending w !! rid = Some (InPoll i) →
       settle rp = Fulfilled r →
       get_prop (response_data r) "status" = Some s →
       useAnalysis.status (cells (step w (Reply rid rp))) = s)
  ∧ ∀ (w : world) (ev : event),
      useAnalysis.status (cells (step w ev)) = useAnalysis.status (cells w)
      ∨ (useAnalysis.status (cells (step w ev)) = VStr "processing"
         ∧ ∃ rid rp, ev = Reply rid rp
                     ∧ pending w !! rid = Some InStartAnalysis
                     ∧ request_failed rp = false)
      ∨ (∃ rid i rp r s,
           ev = Reply rid rp
           ∧ pending w !! rid = Some (InPoll i)
           ∧ settle rp = Fulfilled r
           ∧ get_prop (response_data r) "status" = Some s
           ∧ useAnalysis.status (cells (step w ev)) = s).
Proof.
  intros Hrep.
  assert (Hinit : useAnalysis.status (cells (mount pid b)) = VStr "not_started").
  { unfold mount. by destruct (truthy (VStr pid)). }
  split; [done|]. split.
  - apply run_status_enum; [|done]. rewrite Hinit. by left.
  - split; [apply start_success_sets_processing|].
    split; [apply status_reply_sets_status|apply step_status].
Qed.

Lemma status_mirrors_backend_witness :
  let evs := [StartAnalysis; Reply 1 (ok started); Tick 0;
              Reply 2 (reported "processing"); Tick 0;
              Reply 3 (reported "completed")] in
  reports_within (mount "7" signed_in) evs
  ∧ status_enum (useAnalysis.status (cells (run (mount "7" signed_in) evs)))
  ∧ useAnalysis.status
      (cells (run (mount "7" signed_in) [StartAnalysis; Reply 1 (ok started)]))
    = VStr "processing"
  ∧ useAnalysis.status (cells (run (mount "7" signed_in) evs)) = VStr "completed".
Proof.
  assert (Hrep : reports_within (mount "7" signed_in)
            [StartAnalysis; Reply 1 (ok started); Tick 0;
             Reply 2 (reported "processing"); Tick 0;
             Reply 3 (reported "completed")]).
  { vm_compute. repeat split.
    - intros s [= <-]. right; left. reflexivity.
    - intros s [= <-]. right; right. reflexivity. }
  destruct (status_mirrors_backend "7" signed_in _ Hrep)
    as (_ & Henum & Hstart & Hreport & _).
  split; [exact Hrep|]. split; [exact Henum|]. split.
  - exact (Hstart (step (mount "7" signed_in) StartAnalysis) 1%nat (ok started)
             ltac:(vm_compute; reflexivity) eq_refl).
  - exact (Hreport
             (run (mount "7" signed_in)
                [StartAnalysis; Reply 1 (ok started); Tick 0;
                 Reply 2 (reported "processing"); Tick 0])
             3%nat 0%nat (reported "completed") _ (VStr "completed")
             ltac:(vm_compute; reflexivity) eq_refl eq_refl).
Defined.


(** *** Teardown *)

(** C4 fails on the code.  The cleanup closure that [pollStatus] returns is
    never called: [unmount] leaves the timers as they are, and in the run
    below the timer registered by [startAnalysis] is still live after the
    view is gone and its next tick issues a status request. *)
Theorem unmount_leaves_timer_running :
  (∀ w, timers (step w Unmount) = timers w ∧ log (step w Unmount) = log w)
  ∧ let w := run (mount "7" signed_in)
               [StartAnalysis; Reply 1 (ok started);
                Unmount] in
    mounted w = false
    ∧ timers w !! 0%nat = Some {| delay := 3000; due := 3000 |}
    ∧ polls_of 0 (log w) = []
    ∧ polls_of 0 (log (step w (Tick 0)))
      = [Http 2 (InPoll 0)
           (wire (analysisService.getAnalysisStatus signed_in "7"))].
Proof.
  split; [done|]. vm_compute. repeat split.
Qed.

(** * Further properties of the code *)

(** ** The API client and the session *)

Lemma settle_rejected_response rp e r :
  settle rp = Rejected e → error_response e = Some r → rp = Replied r.
Proof.
  unfold settle. destruct rp as [r'|msg].
  - destruct (validateStatus (api.status r')); [done|].
    intros [= <-]. simpl. by intros [= ->].
  - intros [= <-]. done.
Qed.

Lemma send_with_token b token m u d own :
  getItem b "token" = Some token → token ≠ "" →
  send b m u d own
  = {| method := m; url := u;
       headers := <["Authorization" := "Bearer " +:+ token]> (own ∪ default_headers);
       data := d |}.
Proof.
  intros Hget Hne. unfold send, request_interceptor. rewrite Hget. simpl.
  by rewrite bool_decide_eq_false_2.
Qed.

Lemma send_without_token b m u d own :
  truthy_item (getItem b "token") = false →
  send b m u d own
  = {| method := m; url := u; headers := own ∪ default_headers; data := d |}.
Proof. intros H. unfold send. by apply request_interceptor_signed_out. Qed.

Lemma complete_login_fulfilled b b0 credentials rp r v :
  settle rp = Fulfilled r →
  get_prop (response_data r) "access_token" = Some v →
  complete (authService.login b0 credentials) b rp
  = (setItem b "token" v, Fulfilled (response_data r)).
Proof.
  intros Hs Hg. unfold complete. rewrite (receive_fulfilled _ _ _ Hs).
  simpl. by rewrite Hg.
Qed.

Lemma receive_not_401 (b : browser) (rp : reply) :
  (∀ r, rp = Replied r → api.status r ≠ 401) →
  receive b rp = (b, settle rp).
Proof.
  intros Hno. unfold receive. destruct (settle rp) as [r|e] eqn:Hs; [done|].
  unfold response_interceptor.
  destruct (error_response e) as [r|] eqn:He; [|done].
  pose proof (settle_rejected_response rp e r Hs He) as ->.
  specialize (Hno r eq_refl).
  destruct (api.status r =? 401) eqn:H401; [|done].
  apply Z.eqb_eq in H401. done.
Qed.

(** X1.  Only a 401 touches the session: for every other outcome of a
    request (success, any other status, no reply at all) the response side
    of the client leaves the browser as it was, and it always hands on
    exactly what axios settled. *)
Theorem only_401_touches_session (b : browser) (rp : reply) :
  (∀ r, rp = Replied r → api.status r ≠ 401) →
  (receive b rp).1 = b ∧ (receive b rp).2 = settle rp.
Proof. intros Hno. by rewrite (receive_not_401 b rp Hno). Qed.

Lemma only_401_touches_session_witness :
  let rp := Replied {| api.status := 500; response_data := VNull |} in
  (receive signed_in rp).1 = signed_in.
Proof.
  cbv zeta.
  refine (proj1 (only_401_touches_session signed_in
                   (Replied {| api.status := 500; response_data := VNull |}) _)).
  intros r [= <-]. simpl. discriminate.
Defined.

(** X2.  The request interceptor changes nothing but the [Authorization]
    header, and running it twice is the same as running it once. *)
Theorem request_interceptor_frame (b : browser) (config : api.request) :
  request_interceptor b (request_interceptor b config) = request_interceptor b config
  ∧ method (request_interceptor b config) = method config
  ∧ url (request_interceptor b config) = url config
  ∧ data (request_interceptor b config) = data config
  ∧ ∀ h : string, h ≠ "Authorization" →
      headers (request_interceptor b config) !! h = headers config !! h.
Proof.
  split; [|split; [apply request_interceptor_method|
           split; [apply request_interceptor_url|
           split; [apply request_interceptor_data|
           intros h; apply request_interceptor_other_header]]]].
  unfold request_interceptor.
  destruct (getItem b "token") as [t|]; [|done].
  destruct (truthy_item (Some t)); [|done].
  simpl. by rewrite insert_insert_eq.
Qed.

(** X3.  [logout] ends the session whatever the browser held: the token is
    gone while every other stored key stays, the location is assigned
    [/login] once, [isAuthenticated] is false, and the requests sent
    afterwards get no [Authorization] header from the client. *)
Theorem logout_ends_session (b : browser) (m : http_method) (u : string)
    (d : body) (own : gmap string string) :
  let b' := authService.logout b in
  authService.isAuthenticated b' = false
  ∧ getItem b' "token" = None
  ∧ (∀ k : string, k ≠ "token" → getItem b' k = getItem b k)
  ∧ navigations b' = navigations b ++ ["/login"]
  ∧ send b' m u d own
    = {| method := m; url := u; headers := own ∪ default_headers; data := d |}.
Proof.
  simpl.
  assert (Hnone : getItem (authService.logout b) "token" = None).
  { unfold authService.logout, getItem. simpl. apply lookup_delete_eq. }
  assert (Hauth : authService.isAuthenticated (authService.logout b) = false).
  { unfold authService.isAuthenticated. by rewrite Hnone. }
  split; [done|]. split; [done|]. split.
  - intros k Hk. unfold authService.logout, getItem. simpl.
    by rewrite lookup_delete_ne.
  - split; [done|]. by apply send_without_token.
Qed.

(** X4.  The token a successful login stores is the one the client then
    presents: after [login] resolved on a non-empty string token, every
    request sent carries [Authorization: Bearer] with that token, whatever
    token was stored before. *)
Theorem login_token_is_presented (b : browser) (credentials : jsval)
    (r : response) (token : string)
    (m : http_method) (u : string) (d : body) (own : gmap string string) :
  validateStatus (api.status r) = true →
  get_prop (response_data r) "access_token" = Some (VStr token) →
  token ≠ "" →
  let b' := (complete (authService.login b credentials) b (Replied r)).1 in
  headers (send b' m u d own) !! "Authorization" = Some ("Bearer " +:+ token).
Proof.
  intros Hok Hg Hne. cbv zeta.
  rewrite (complete_login_fulfilled b b credentials (Replied r) r (VStr token)); [|by unfold settle; rewrite Hok|done].
  simpl. rewrite (send_with_token _ token).
  - simpl. apply lookup_insert_eq.
  - unfold getItem. simpl. apply lookup_insert_eq.
  - done.
Qed.

Lemma login_token_is_presented_witness :
  let r := {| api.status := 200;
              response_data := VObj [("access_token", VStr "fresh")] |} in
  let b' := (complete (authService.login signed_in sample_credentials)
               signed_in (Replied r)).1 in
  validateStatus (api.status r) = true
  ∧ headers (get b' "/projects") !! "Authorization" = Some "Bearer fresh".
Proof.
  cbv zeta. split; [reflexivity|].
  exact (login_token_is_presented signed_in sample_credentials
           {| api.status := 200;
              response_data := VObj [("access_token", VStr "fresh")] |}
           "fresh" GET "/projects" NoBody ∅ eq_refl eq_refl ltac:(discriminate)).
Defined.

(** X5.  A login whose request fails stores nothing: the call rejects with
    the error of axios, no key of the storage other than [token] changes,
    and [token] is either as before or removed (by the 401 handling),
    never set. *)
Theorem failed_login_stores_nothing (b : browser) (credentials : jsval)
    (rp : reply) (e : js_error) :
  settle rp = Rejected e →
  let out := complete (authService.login b credentials) b rp in
  out.2 = Rejected e
  ∧ (∀ k : string, k ≠ "token" → getItem out.1 k = getItem b k)
  ∧ (getItem out.1 "token" = getItem b "token" ∨ getItem out.1 "token" = None).
Proof.
  intros Hs. cbv zeta. unfold complete, receive. rewrite Hs.
  unfold response_interceptor.
  destruct (error_response e) as [r|]; [|simpl; auto].
  destruct (api.status r =? 401); simpl; [|auto].
  split; [done|]. split.
  - intros k Hk. unfold getItem. simpl. by rewrite lookup_delete_ne.
  - right. unfold getItem. simpl. apply lookup_delete_eq.
Qed.

Lemma failed_login_stores_nothing_witness :
  let rp := Replied {| api.status := 422; response_data := VNull |} in
  ∃ e, settle rp = Rejected e
       ∧ (complete (authService.login signed_out sample_credentials)
            signed_out rp).2 = Rejected e.
Proof.
  cbv zeta. eexists. split; [reflexivity|].
  exact (proj1 (failed_login_stores_nothing signed_out sample_credentials
                  (Replied {| api.status := 422; response_data := VNull |})
                  _ eq_refl)).
Defined.

(** X6.  A successful reply whose body is an object without an
    [access_token] field still resolves the login: the destructured value
    is [undefined], [setItem] stores the string "undefined", and
    [isAuthenticated] is true afterwards. *)
Theorem login_without_token_field (b : browser) (credentials : jsval)
    (r : response) (fields : list (string * jsval)) :
  validateStatus (api.status r) = true →
  response_data r = VObj fields →
  field "access_token" fields = VUndefined →
  let out := complete (authService.login b credentials) b (Replied r) in
  out.2 = Fulfilled (response_data r)
  ∧ getItem out.1 "token" = Some "undefined"
  ∧ authService.isAuthenticated out.1 = true.
Proof.
  intros Hok Hdata Hfield. cbv zeta.
  rewrite (complete_login_fulfilled b b credentials (Replied r) r VUndefined).
  - simpl. unfold authService.isAuthenticated, getItem. simpl.
    by rewrite lookup_insert_eq.
  - unfold settle. by rewrite Hok.
  - rewrite Hdata. simpl. by rewrite Hfield.
Qed.

Lemma login_without_token_field_witness :
  let r := {| api.status := 200;
              response_data := VObj [("message", VStr "welcome")] |} in
  validateStatus (api.status r) = true
  ∧ authService.isAuthenticated
      (complete (authService.login signed_out sample_credentials)
         signed_out (Replied r)).1 = true.
Proof.
  cbv zeta. split; [reflexivity|].
  exact (proj2 (proj2 (login_without_token_field signed_out sample_credentials
                  {| api.status := 200;
                     response_data := VObj [("message", VStr "welcome")] |}
                  [("message", VStr "welcome")] eq_refl eq_refl eq_refl))).
Defined.

(** ** The authentication context *)

Lemma js_or_truthy a b : truthy b = true → truthy (js_or a b) = true.
Proof. intros H. unfold js_or. by destruct (truthy a) eqn:Ha. Qed.

Lemma complete_rejected {A} (c : call A) b rp e
    (Hres : ∀ b0, resume c b0 (Rejected e) = (b0, Rejected e)) :
  settle rp = Rejected e →
  complete c b rp = ((receive b rp).1, Rejected e).
Proof.
  intros Hs. unfold complete.
  destruct (receive_rejected b rp e Hs) as [b' ->]. simpl. apply Hres.
Qed.

(** X7.  [checkAuth] without a usable stored token asks the backend
    nothing: no request is made, the browser and the user are as before,
    and [loading] ends false. *)
Theorem checkAuth_signed_out_is_local (b : browser) (st : AuthContext.state)
    (me : reply) :
  authService.isAuthenticated b = false →
  let r := AuthContext.checkAuth b st me in
  AuthContext.effects r = []
  ∧ AuthContext.browser_after r = b
  ∧ AuthContext.user (AuthContext.state_after r) = AuthContext.user st
  ∧ AuthContext.loading (AuthContext.state_after r) = false.
Proof. intros H. cbv zeta. unfold AuthContext.checkAuth. by rewrite H. Qed.

Lemma checkAuth_signed_out_is_local_witness :
  authService.isAuthenticated signed_out = false
  ∧ AuthContext.effects
      (AuthContext.checkAuth signed_out AuthContext.initial (ok VNull)) = [].
Proof.
  split; [reflexivity|].
  exact (proj1 (checkAuth_signed_out_is_local signed_out AuthContext.initial
                  (ok VNull) eq_refl)).
Defined.

Lemma checkAuth_rejected b st me e :
  authService.isAuthenticated b = true →
  settle me = Rejected e →
  AuthContext.checkAuth b st me
  = {| AuthContext.browser_after := authService.logout (receive b me).1;
       AuthContext.state_after := AuthContext.setLoading false st;
       AuthContext.effects :=
         [AuthContext.Request (wire (authService.getCurrentUser b));
          AuthContext.ConsoleError "Auth check failed:" e];
       AuthContext.result := Fulfilled tt |}.
Proof.
  intros Hauth Hs. unfold AuthContext.checkAuth. rewrite Hauth.
  by rewrite (complete_rejected (authService.getCurrentUser b) b me e
                (fun _ => eq_refl) Hs).
Qed.

Lemma checkAuth_fulfilled b st me r :
  authService.isAuthenticated b = true →
  settle me = Fulfilled r →
  AuthContext.checkAuth b st me
  = {| AuthContext.browser_after := b;
       AuthContext.state_after :=
         AuthContext.setLoading false (AuthContext.setUser (response_data r) st);
       AuthContext.effects :=
         [AuthContext.Request (wire (authService.getCurrentUser b))];
       AuthContext.result := Fulfilled tt |}.
Proof.
  intros Hauth Hs. unfold AuthContext.checkAuth. rewrite Hauth.
  unfold complete. by rewrite (receive_fulfilled _ _ _ Hs).
Qed.

Lemma isAuthenticated_setItem b t :
  t ≠ "" → authService.isAuthenticated (setItem b "token" (VStr t)) = true.
Proof.
  intros Hne. unfold authService.isAuthenticated, getItem. simpl.
  rewrite lookup_insert_eq. simpl. by rewrite bool_decide_eq_false_2.
Qed.

(** X8.  When the request of [checkAuth] fails, in whatever way, the
    session is torn down: the token is removed, the location ends at
    [/login], the user cell is not written and [loading] ends false; the
    function itself still resolves.  The location is assigned once, or
    twice when the failure is a 401 (the interceptor and then [logout]). *)
Theorem checkAuth_failure_signs_out (b : browser) (st : AuthContext.state)
    (me : reply) (e : js_error) :
  authService.isAuthenticated b = true →
  settle me = Rejected e →
  let r := AuthContext.checkAuth b st me in
  getItem (AuthContext.browser_after r) "token" = None
  ∧ href (AuthContext.browser_after r) = "/login"
  ∧ AuthContext.user (AuthContext.state_after r) = AuthContext.user st
  ∧ AuthContext.loading (AuthContext.state_after r) = false
  ∧ AuthContext.result r = Fulfilled tt
  ∧ ((∀ resp, me = Replied resp → api.status resp ≠ 401) →
     navigations (AuthContext.browser_after r) = navigations b ++ ["/login"])
  ∧ (∀ resp, me = Replied resp → api.status resp = 401 →
     navigations (AuthContext.browser_after r)
     = navigations b ++ ["/login"; "/login"]).
Proof.
  intros Hauth Hs. cbv zeta. rewrite (checkAuth_rejected b st me e Hauth Hs).
  simpl.
  split; [unfold getItem; simpl; apply lookup_delete_eq|].
  do 4 (split; [done|]). split.
  - intros Hno. by rewrite (receive_not_401 b me Hno).
  - intros resp -> H401. unfold receive. rewrite Hs.
    unfold settle in Hs. destruct (validateStatus (api.status resp)); [done|].
    injection Hs as <-. unfold response_interceptor. simpl.
    rewrite H401. simpl. by rewrite <- app_assoc.
Qed.

Lemma checkAuth_failure_signs_out_witness :
  authService.isAuthenticated signed_in = true
  ∧ navigations
      (AuthContext.browser_after
         (AuthContext.checkAuth signed_in AuthContext.initial (Replied unauthorized)))
    = ["/login"; "/login"].
Proof.
  split; [reflexivity|].
  exact (proj2 (proj2 (proj2 (proj2 (proj2 (proj2
           (checkAuth_failure_signs_out signed_in AuthContext.initial
              (Replied unauthorized) _ eq_refl eq_refl))))))
           unauthorized eq_refl eq_refl).
Defined.

(** X9.  The provider's [login] resolves with the login data as soon as
    [authService.login] does, even when the check of the session that
    follows fails: in that case the token just stored is removed again and
    the user cell is not written, yet the caller sees a success. *)
Theorem context_login_outlives_failed_check (b : browser)
    (st : AuthContext.state) (credentials : jsval) (token me : reply)
    (r : response) (t : string) (e : js_error) :
  settle token = Fulfilled r →
  get_prop (response_data r) "access_token" = Some (VStr t) →
  t ≠ "" →
  settle me = Rejected e →
  let out := AuthContext.login b st credentials token me in
  AuthContext.result out = Fulfilled (response_data r)
  ∧ getItem (AuthContext.browser_after out) "token" = None
  ∧ AuthContext.user (AuthContext.state_after out) = AuthContext.user st
  ∧ AuthContext.loading (AuthContext.state_after out) = false.
Proof.
  intros Hs Hg Hne Hme. cbv zeta. unfold AuthContext.login.
  rewrite (complete_login_fulfilled b b credentials token r (VStr t) Hs Hg).
  rewrite (checkAuth_rejected _ st me e (isAuthenticated_setItem b t Hne) Hme).
  simpl. split; [done|]. split; [|done].
  unfold getItem. simpl. apply lookup_delete_eq.
Qed.

Lemma context_login_outlives_failed_check_witness :
  let out := AuthContext.login signed_out AuthContext.initial sample_credentials
               (ok (VObj [("access_token", VStr "fresh")]))
               (NetworkError "Network Error") in
  AuthContext.result out = Fulfilled (VObj [("access_token", VStr "fresh")])
  ∧ getItem (AuthContext.browser_after out) "token" = None.
Proof.
  cbv zeta.
  destruct (context_login_outlives_failed_check signed_out AuthContext.initial
              sample_credentials (ok (VObj [("access_token", VStr "fresh")]))
              (NetworkError "Network Error") _ "fresh" _
              eq_refl eq_refl ltac:(discriminate) eq_refl) as (H1 & H2 & _).
  split; [exact H1|exact H2].
Defined.

(** X10.  When both requests succeed, the provider's [login] stores the
    token, fetches the user with that very token in the [Authorization]
    header, and ends with the user cell holding the body of [/auth/me],
    [loading] false, and the login data as its result. *)
Theorem context_login_success (b : browser) (st : AuthContext.state)
    (credentials : jsval) (token me : reply) (r r' : response) (t : string) :
  settle token = Fulfilled r →
  get_prop (response_data r) "access_token" = Some (VStr t) →
  t ≠ "" →
  settle me = Fulfilled r' →
  let out := AuthContext.login b st credentials token me in
  AuthContext.result out = Fulfilled (response_data r)
  ∧ AuthContext.user (AuthContext.state_after out) = response_data r'
  ∧ AuthContext.loading (AuthContext.state_after out) = false
  ∧ getItem (AuthContext.browser_after out) "token" = Some t
  ∧ navigations (AuthContext.browser_after out) = navigations b
  ∧ ∃ req_login req_me,
      AuthContext.effects out
      = [AuthContext.Request req_login; AuthContext.Request req_me]
      ∧ url req_login = "/auth/login" ∧ method req_login = POST
      ∧ url req_me = "/auth/me" ∧ method req_me = GET
      ∧ headers req_me !! "Authorization" = Some ("Bearer " +:+ t).
Proof.
  intros Hs Hg Hne Hme. cbv zeta. unfold AuthContext.login.
  rewrite (complete_login_fulfilled b b credentials token r (VStr t) Hs Hg).
  rewrite (checkAuth_fulfilled _ st me r' (isAuthenticated_setItem b t Hne) Hme).
  simpl. do 3 (split; [done|]).
  split; [unfold getItem; simpl; apply lookup_insert_eq|]. split; [done|].
  eexists _, _. split; [done|].
  unfold post, get.
  split; [unfold send; by rewrite request_interceptor_url|].
  split; [unfold send; by rewrite request_interceptor_method|].
  split; [unfold send; by rewrite request_interceptor_url|].
  split; [unfold send; by rewrite request_interceptor_method|].
  rewrite (send_with_token _ t); [simpl; apply lookup_insert_eq| |done].
  unfold getItem. simpl. apply lookup_insert_eq.
Qed.

Lemma context_login_success_witness :
  let out := AuthContext.login signed_out AuthContext.initial sample_credentials
               (ok (VObj [("access_token", VStr "fresh")]))
               (ok (VObj [("username", VStr "ada")])) in
  AuthContext.user (AuthContext.state_after out) = VObj [("username", VStr "ada")]
  ∧ AuthContext.isAuthenticated (AuthContext.state_after out) = true
  ∧ getItem (AuthContext.browser_after out) "token" = Some "fresh".
Proof.
  cbv zeta.
  destruct (context_login_success signed_out AuthContext.initial
              sample_credentials (ok (VObj [("access_token", VStr "fresh")]))
              (ok (VObj [("username", VStr "ada")])) _ _ "fresh"
              eq_refl eq_refl ltac:(discriminate) eq_refl)
    as (_ & Huser & _ & Htok & _).
  split; [exact Huser|]. split; [|exact Htok].
  unfold AuthContext.isAuthenticated. rewrite Huser. reflexivity.
Defined.

(** ** The forms *)



(** X12.  A login attempt that is rejected keeps the user on the form: the
    page never navigates and ends with [loading] false; its error cell
    holds the backend's [detail] when that is truthy (whatever value it
    is) and the text "Login failed. Please try again." otherwise; and the
    provider neither asks for [/auth/me] nor writes its cells. *)
Theorem rejected_login_stays_on_form (b : browser) (ctx : AuthContext.state)
    (st : Login.state) (token me : reply) (e : js_error) :
  settle token = Rejected e →
  let out := Login.submit b ctx st token me in
  out.2 = [Login.PreventDefault]
  ∧ (truthy (Login.detail e) = true → Login.error out.1.2 = Login.detail e)
  ∧ (truthy (Login.detail e) = false →
     Login.error out.1.2 = VStr "Login failed. Please try again.")
  ∧ (error_response e = None →
     Login.error out.1.2 = VStr "Login failed. Please try again.")
  ∧ truthy (Login.error out.1.2) = true
  ∧ Login.loading out.1.2 = false
  ∧ AuthContext.state_after out.1.1 = ctx
  ∧ AuthContext.result out.1.1 = Rejected e
  ∧ ∃ req, AuthContext.effects out.1.1 = [AuthContext.Request req]
           ∧ url req = "/auth/login".
Proof.
  intros Hs. cbv zeta. unfold Login.submit, AuthContext.login. simpl.
  rewrite (complete_rejected (authService.login b _) b token e
             (fun _ => eq_refl) Hs). simpl.
  split; [done|].
  split; [intros H; unfold js_or; by rewrite H|].
  split; [intros H; unfold js_or; by rewrite H|].
  split; [intros H; unfold js_or, Login.detail; by rewrite H|].
  split; [by apply js_or_truthy|]. do 3 (split; [done|]).
  eexists. split; [done|]. unfold post, send. by rewrite request_interceptor_url.
Qed.

Lemma rejected_login_stays_on_form_witness :
  let out := Login.submit signed_out AuthContext.initial Login.initial
               (Replied unauthorized) (ok VNull) in
  truthy (Login.detail
            (AxiosError "Request failed with status code 401" (Some unauthorized)))
  = true
  ∧ out.2 = [Login.PreventDefault]
  ∧ Login.error out.1.2 = VStr "Not authenticated".
Proof.
  cbv zeta.
  destruct (rejected_login_stays_on_form signed_out AuthContext.initial
              Login.initial (Replied unauthorized) (ok VNull)
              (AxiosError "Request failed with status code 401" (Some unauthorized))
              eq_refl) as (Hstay & Hdetail & _).
  split; [reflexivity|]. split; [exact Hstay|].
  exact (Hdetail eq_refl).
Defined.

(** X13.  A login attempt whose token request succeeds with a body that
    can be destructured sends the user to [/dashboard], exactly once and
    with the error cleared, whatever becomes of the session check that
    follows. *)
Theorem accepted_login_navigates_once (b : browser) (ctx : AuthContext.state)
    (st : Login.state) (token me : reply) (r : response) (v : jsval) :
  settle token = Fulfilled r →
  get_prop (response_data r) "access_token" = Some v →
  let out := Login.submit b ctx st token me in
  out.2 = [Login.PreventDefault; Login.Navigate "/dashboard"]
  ∧ Login.error out.1.2 = VStr ""
  ∧ Login.loading out.1.2 = false
  ∧ AuthContext.result out.1.1 = Fulfilled (response_data r).
Proof.
  intros Hs Hg. cbv zeta. unfold Login.submit, AuthContext.login. simpl.
  rewrite (complete_login_fulfilled b b _ token r v Hs Hg). simpl. done.
Qed.

Lemma accepted_login_navigates_once_witness :
  (Login.submit signed_out AuthContext.initial Login.initial
     (ok (VObj [("access_token", VStr "fresh")]))
     (NetworkError "Network Error")).2
  = [Login.PreventDefault; Login.Navigate "/dashboard"].
Proof.
  exact (proj1 (accepted_login_navigates_once signed_out AuthContext.initial
                  Login.initial (ok (VObj [("access_token", VStr "fresh")]))
                  (NetworkError "Network Error") _ _ eq_refl eq_refl)).
Defined.

(** ** Routing *)

(** X14.  Once the provider has finished loading, no route shows a
    spinner, and every redirect lands on a page at once: the target of a
    [Navigate] renders a page under the same context, so no redirect
    chain or loop exists. *)
Theorem redirects_land_on_a_page (ctx : AuthContext.state) (r : App.route) :
  AuthContext.loading ctx = false →
  match App.element r ctx with
  | App.Page _ => True
  | App.NavigateTo path => ∃ p, App.element (App.Routes path) ctx = App.Page p
  | App.Spinner => False
  end.
Proof.
  intros Hl. destruct r; simpl; unfold App.PublicRoute, App.ProtectedRoute;
    rewrite ?Hl; try done.
  - destruct (AuthContext.isAuthenticated ctx) eqn:Ha; simpl; [|done].
    exists App.Dashboard. simpl. unfold App.ProtectedRoute. by rewrite Hl, Ha.
  - destruct (AuthContext.isAuthenticated ctx) eqn:Ha; simpl; [|done].
    exists App.Dashboard. simpl. unfold App.ProtectedRoute. by rewrite Hl, Ha.
  - destruct (AuthContext.isAuthenticated ctx) eqn:Ha; simpl; [done|].
    exists App.Login. simpl. unfold App.PublicRoute. by rewrite Hl, Ha.
  - by exists App.Home.
Qed.

Lemma redirects_land_on_a_page_witness :
  ∃ p, App.element (App.Routes "/login")
         {| AuthContext.user := VNull; AuthContext.loading := false |}
       = App.Page p.
Proof.
  exact (redirects_land_on_a_page
           {| AuthContext.user := VNull; AuthContext.loading := false |}
           App.RDashboard eq_refl).
Defined.

(** X15.  The dashboard is rendered exactly when loading is over and the
    user cell is truthy; the login and registration pages exactly when
    loading is over and it is not.  While loading, all three show the
    spinner. *)
Theorem guarded_pages (ctx : AuthContext.state) :
  (App.element App.RDashboard ctx = App.Page App.Dashboard
   ↔ AuthContext.loading ctx = false ∧ truthy (AuthContext.user ctx) = true)
  ∧ (App.element App.RLogin ctx = App.Page App.Login
     ↔ AuthContext.loading ctx = false ∧ truthy (AuthContext.user ctx) = false)
  ∧ (App.element App.RRegister ctx = App.Page App.Register
     ↔ AuthContext.loading ctx = false ∧ truthy (AuthContext.user ctx) = false)
  ∧ (AuthContext.loading ctx = true →
     App.element App.RDashboard ctx = App.Spinner
     ∧ App.element App.RLogin ctx = App.Spinner
     ∧ App.element App.RRegister ctx = App.Spinner).
Proof.
  simpl. unfold App.ProtectedRoute, App.PublicRoute, AuthContext.isAuthenticated.
  destruct (AuthContext.loading ctx), (truthy (AuthContext.user ctx)); simpl;
    intuition discriminate.
Qed.

(** ** The analysis hook, further *)

Lemma deliver_start_fulfilled w rid rp r :
  pending w !! rid = Some InStartAnalysis →
  settle rp = Fulfilled r →
  step w (Reply rid rp)
  = (settled rid (window w) >>> startAnalysis_settled (Fulfilled (response_data r))) w.
Proof.
  intros Hp Hs. simpl. unfold deliver.
  by rewrite Hp, (receive_fulfilled _ _ _ Hs).
Qed.

Lemma deliver_start_rejected w rid rp e :
  pending w !! rid = Some InStartAnalysis →
  settle rp = Rejected e →
  ∃ b', step w (Reply rid rp)
        = (settled rid b' >>> startAnalysis_settled (Rejected e)) w.
Proof.
  intros Hp Hs. destruct (receive_rejected (window w) rp e Hs) as [b' Hr].
  exists b'. simpl. unfold deliver. by rewrite Hp, Hr.
Qed.

Lemma deliver_results_fulfilled w rid rp r :
  pending w !! rid = Some InFetchResults →
  settle rp = Fulfilled r →
  step w (Reply rid rp)
  = (settled rid (window w) >>> fetchResults_settled (Fulfilled (response_data r))) w.
Proof.
  intros Hp Hs. simpl. unfold deliver.
  by rewrite Hp, (receive_fulfilled _ _ _ Hs).
Qed.

Lemma deliver_results_rejected w rid rp e :
  pending w !! rid = Some InFetchResults →
  settle rp = Rejected e →
  ∃ b', step w (Reply rid rp)
        = (settled rid b' >>> fetchResults_settled (Rejected e)) w.
Proof.
  intros Hp Hs. destruct (receive_rejected (window w) rp e Hs) as [b' Hr].
  exists b'. simpl. unfold deliver. by rewrite Hp, Hr.
Qed.

(** X16.  A [startAnalysis] whose request fails does not start polling:
    no timer is registered and nothing is sent, the status keeps its
    value, the error's message is shown and [loading] is dropped. *)
Theorem failed_start_does_not_poll (w : world) (rid : nat) (rp : reply)
    (e : js_error) :
  pending w !! rid = Some InStartAnalysis →
  settle rp = Rejected e →
  let w' := step w (Reply rid rp) in
  timers w' = timers w
  ∧ log w' = log w
  ∧ useAnalysis.status (cells w') = useAnalysis.status (cells w)
  ∧ useAnalysis.error (cells w') = VStr (message e)
  ∧ useAnalysis.loading (cells w') = false.
Proof.
  intros Hp Hs. cbv zeta.
  destruct (deliver_start_rejected w rid rp e Hp Hs) as [b' ->].
  unfold_hook. simpl. done.
Qed.

Lemma failed_start_does_not_poll_witness :
  let w := step (mount "7" signed_in) StartAnalysis in
  pending w !! 1%nat = Some InStartAnalysis
  ∧ timers (step w (Reply 1 (NetworkError "Network Error"))) = timers w
  ∧ useAnalysis.error (cells (step w (Reply 1 (NetworkError "Network Error"))))
    = VStr "Network Error".
Proof.
  cbv zeta. split; [vm_compute; reflexivity|].
  destruct (failed_start_does_not_poll (step (mount "7" signed_in) StartAnalysis)
              1 (NetworkError "Network Error") _
              ltac:(vm_compute; reflexivity) eq_refl) as (Ht & _ & _ & He & _).
  split; [exact Ht|exact He].
Defined.

(** X17.  In every run, a [startAnalysis] that succeeds adds one polling
    loop and cancels none: a timer with a so far unused id and period 3000
    is registered, every timer that was live stays live and unchanged, and
    the status becomes [processing].  Starting again while a loop runs
    therefore leaves two loops polling. *)
Theorem successful_start_adds_a_loop (pid : string) (b : browser)
    (evs : list event) (rid : nat) (rp : reply) (r : response) :
  let w := run (mount pid b) evs in
  pending w !! rid = Some InStartAnalysis →
  settle rp = Fulfilled r →
  let w' := step w (Reply rid rp) in
  timers w !! next_timer w = None
  ∧ timers w' !! next_timer w = Some {| delay := 3000; due := 3000 |}
  ∧ (∀ i t, timers w !! i = Some t → timers w' !! i = Some t)
  ∧ size (timers w') = S (size (timers w))
  ∧ log w' = log w ++ [SetInterval (next_timer w) 3000]
  ∧ useAnalysis.status (cells w') = VStr "processing".
Proof.
  intros w Hp Hs w'.
  assert (Hfresh : ids_fresh w) by apply run_ids_fresh, mount_ids_fresh.
  assert (Hnone : timers w !! next_timer w = None) by (apply Hfresh; lia).
  unfold w'. rewrite (deliver_start_fulfilled w rid rp r Hp Hs).
  unfold_hook. simpl.
  split; [done|]. split; [apply lookup_insert_eq|]. split.
  - intros i t Hi. rewrite lookup_insert_ne; [done|]. congruence.
  - split; [by apply map_size_insert_None|done].
Qed.

Lemma successful_start_adds_a_loop_witness :
  let again := run polling [StartAnalysis] in
  pending again !! 3%nat = Some InStartAnalysis
  ∧ size (timers (step again (Reply 3 (ok started)))) = 2%nat.
Proof.
  cbv zeta. split; [vm_compute; reflexivity|].
  destruct (successful_start_adds_a_loop "7" signed_in
              [StartAnalysis; Reply 1 (ok started); Tick 0; StartAnalysis]
              3 (ok started) _ ltac:(vm_compute; reflexivity) eq_refl)
    as (_ & _ & _ & Hsize & _).
  exact (eq_trans Hsize ltac:(vm_compute; reflexivity)).
Defined.

(** X18.  A successful status reply that reports anything but [completed]
    keeps the loop going: the status cell takes the reported value, and
    nothing else happens - no timer is touched, nothing is sent, the
    analysis, the error and [loading] stay. *)
Theorem unfinished_status_keeps_polling (w : world) (rid i : nat) (rp : reply)
    (r : response) (s : jsval) :
  pending w !! rid = Some (InPoll i) →
  settle rp = Fulfilled r →
  get_prop (response_data r) "status" = Some s →
  is_completed s = false →
  let w' := step w (Reply rid rp) in
  useAnalysis.status (cells w') = s
  ∧ timers w' = timers w
  ∧ log w' = log w
  ∧ analysis (cells w') = analysis (cells w)
  ∧ useAnalysis.error (cells w') = useAnalysis.error (cells w)
  ∧ useAnalysis.loading (cells w') = useAnalysis.loading (cells w).
Proof.
  intros Hp Hs Hg Hc. cbv zeta.
  rewrite (deliver_poll_fulfilled w rid i rp r Hp Hs).
  unfold_hook. simpl. rewrite Hg, Hc. done.
Qed.

Lemma unfinished_status_keeps_polling_witness :
  pending polling !! 2%nat = Some (InPoll 0)
  ∧ timers (step polling (Reply 2 (reported "processing"))) = timers polling
  ∧ useAnalysis.status (cells (step polling (Reply 2 (reported "processing"))))
    = VStr "processing".
Proof.
  split; [vm_compute; reflexivity|].
  destruct (unfinished_status_keeps_polling polling 2 0 (reported "processing")
              _ _ ltac:(vm_compute; reflexivity) eq_refl eq_refl eq_refl)
    as (Hst & Ht & _).
  split; [exact Ht|exact Hst].
Defined.

(** X19.  A successful status reply whose body is [null] (or [undefined])
    ends the loop through the [catch]: reading [status] throws, the timer
    is cancelled, an error message is shown, [loading] is dropped, and
    neither the status is written nor the results fetched. *)
Theorem bodyless_status_ends_loop (w : world) (rid i : nat) (rp : reply)
    (r : response) :
  pending w !! rid = Some (InPoll i) →
  settle rp = Fulfilled r →
  get_prop (response_data r) "status" = None →
  let w' := step w (Reply rid rp) in
  timers w' !! i = None
  ∧ log w' = log w ++ [ClearInterval i]
  ∧ useAnalysis.status (cells w') = useAnalysis.status (cells w)
  ∧ truthy (useAnalysis.error (cells w')) = true
  ∧ useAnalysis.loading (cells w') = false.
Proof.
  intros Hp Hs Hg. cbv zeta.
  rewrite (deliver_poll_fulfilled w rid i rp r Hp Hs).
  unfold_hook. simpl. rewrite Hg. simpl.
  split; [apply lookup_delete_eq|]. do 2 (split; [done|]). split; [|done].
  unfold type_error_message. by destruct (response_data r).
Qed.

Lemma bodyless_status_ends_loop_witness :
  pending polling !! 2%nat = Some (InPoll 0)
  ∧ timers (step polling (Reply 2 (ok VNull))) !! 0%nat = None.
Proof.
  split; [vm_compute; reflexivity|].
  exact (proj1 (bodyless_status_ends_loop polling 2 0 (ok VNull) _
                  ltac:(vm_compute; reflexivity) eq_refl eq_refl)).
Defined.

(** X20.  What a reply to a results request changes.  On success the
    analysis cell takes the body and [loading] is dropped, while an error
    shown earlier is not cleared; on failure the error's message is shown
    and [loading] is dropped, while an analysis fetched earlier stays.
    Either way the status, the timers and the log are untouched. *)
Theorem results_reply (w : world) (rid : nat) (rp : reply) :
  pending w !! rid = Some InFetchResults →
  let w' := step w (Reply rid rp) in
  useAnalysis.loading (cells w') = false
  ∧ useAnalysis.status (cells w') = useAnalysis.status (cells w)
  ∧ timers w' = timers w
  ∧ log w' = log w
  ∧ match settle rp with
    | Fulfilled r =>
        analysis (cells w') = response_data r
        ∧ useAnalysis.error (cells w') = useAnalysis.error (cells w)
    | Rejected e =>
        analysis (cells w') = analysis (cells w)
        ∧ useAnalysis.error (cells w') = VStr (message e)
    end.
Proof.
  intros Hp. cbv zeta. destruct (settle rp) as [r|e] eqn:Hs.
  - rewrite (deliver_results_fulfilled w rid rp r Hp Hs). unfold_hook. done.
  - destruct (deliver_results_rejected w rid rp e Hp Hs) as [b' ->].
    unfold_hook. done.
Qed.

Lemma results_reply_witness :
  pending polling !! 0%nat = Some InFetchResults
  ∧ useAnalysis.loading
      (cells (step polling (Reply 0 (NetworkError "Network Error")))) = false.
Proof.
  split; [vm_compute; reflexivity|].
  exact (proj1 (results_reply polling 0 (NetworkError "Network Error")
                  ltac:(vm_compute; reflexivity))).
Defined.

Lemma mount_requests_bounded pid b : requests_bounded (mount pid b).
Proof.
  unfold mount, requests_bounded.
  destruct (truthy (VStr pid)); unfold_hook; simpl; intros rid site H;
    map_cases; done || lia.
Qed.

Lemma step_requests_bounded w ev : requests_bounded w → requests_bounded (step w ev).
Proof.
  intros Hb. unfold requests_bounded in *.
  destruct ev; step_cases; intros ? ? ?; map_cases;
    try done; try lia; try (by eapply Hb); try (by eapply Nat.lt_lt_succ_r, Hb).
Qed.

Lemma run_requests_bounded evs : ∀ w, requests_bounded w → requests_bounded (run w evs).
Proof.
  induction evs as [|ev evs IH]; intros w Hw; [done|].
  rewrite run_cons. by apply IH, step_requests_bounded.
Qed.

(** X21.  In every run, each run of a timer's callback issues exactly one
    status request and status requests are issued in no other way: for
    every loop, the number of its status requests equals the number of
    times its timer has run. *)
Theorem one_status_request_per_tick (pid : string) (b : browser)
    (evs : list event) (i : nat) :
  length (polls_of i (log (run (mount pid b) evs)))
  = length (fire_times i (log (run (mount pid b) evs))).
Proof.
  assert (Hstep : ∀ w ev,
    length (polls_of i (log w)) = length (fire_times i (log w)) →
    length (polls_of i (log (step w ev))) = length (fire_times i (log (step w ev)))).
  { intros w ev Hw.
    destruct ev; step_cases;
      rewrite ?polls_of_app, ?fire_times_app, ?length_app; simpl;
      repeat case_bool_decide; simpl; try done; try lia; try congruence. }
  assert (Hrun : ∀ evs w,
    length (polls_of i (log w)) = length (fire_times i (log w)) →
    length (polls_of i (log (run w evs))) = length (fire_times i (log (run w evs)))).
  { intros evs0. induction evs0 as [|ev evs0 IH]; intros w Hw; [done|].
    rewrite run_cons. by apply IH, Hstep. }
  apply Hrun. unfold mount. by destruct (truthy (VStr pid)).
Qed.

Lemma service_requests b pid :
  analysis_request pid (wire (analysisService.startAnalysis b pid))
  ∧ analysis_request pid (wire (analysisService.getAnalysisStatus b pid))
  ∧ analysis_request pid (wire (analysisService.getAnalysisResults b pid)).
Proof.
  unfold analysis_request. simpl. unfold post, get, send.
  rewrite !request_interceptor_method, !request_interceptor_url,
    !request_interceptor_data. simpl. naive_solver.
Qed.

Lemma step_confined w ev :
  confined (projectId w) (log w) → confined (projectId w) (log (step w ev)).
Proof.
  intros Hc. unfold confined in *.
  destruct ev; step_cases; rewrite ?Forall_app, ?Forall_cons, ?Forall_nil;
    try done;
    repeat match goal with |- _ ∧ _ => split end; try done.
  all: first [ apply (proj1 (service_requests _ _))
             | apply (proj1 (proj2 (service_requests _ _)))
             | apply (proj2 (proj2 (service_requests _ _))) ].
Qed.

Lemma run_confined evs : ∀ w,
  confined (projectId w) (log w) → confined (projectId w) (log (run w evs)).
Proof.
  induction evs as [|ev evs IH]; intros w Hw; [done|].
  rewrite run_cons. rewrite <- (step_projectId w ev). apply IH.
  rewrite step_projectId. by apply step_confined.
Qed.

(** X22.  In every run, the hook talks to the backend about its own
    project only and in three ways only: each request it ever sends is,
    without a body, the POST to [/analysis/run/<id>], the GET of
    [/analysis/status/<id>] or the GET of [/analysis/results/<id>]. *)
Theorem hook_requests_are_confined (pid : string) (b : browser)
    (evs : list event) (rid : nat) (site : awaiting) (req : api.request) :
  Http rid site req ∈ log (run (mount pid b) evs) →
  data req = NoBody
  ∧ ((method req = POST ∧ url req = "/analysis/run/" +:+ pid)
     ∨ (method req = GET ∧ url req = "/analysis/status/" +:+ pid)
     ∨ (method req = GET ∧ url req = "/analysis/results/" +:+ pid)).
Proof.
  intros Hin.
  assert (Hc : confined pid (log (run (mount pid b) evs))).
  { rewrite <- (mount_projectId pid b) at 1. apply run_confined.
    rewrite mount_projectId. unfold mount, confined.
    destruct (truthy (VStr pid)); unfold_hook; simpl; [|done].
    apply Forall_cons. split; [|done].
    apply (proj2 (proj2 (service_requests _ _))). }
  unfold confined in Hc. rewrite Forall_forall in Hc.
  exact (Hc _ Hin).
Qed.

Lemma hook_requests_are_confined_witness :
  let req := wire (analysisService.getAnalysisStatus signed_in "7") in
  Http 2 (InPoll 0) req ∈ log polling
  ∧ data req = NoBody.
Proof.
  cbv zeta.
  assert (Hin : Http 2 (InPoll 0) (wire (analysisService.getAnalysisStatus signed_in "7"))
                ∈ log polling).
  { apply list_elem_of_lookup. exists 4%nat. vm_compute. reflexivity. }
  split; [exact Hin|].
  exact (proj1 (hook_requests_are_confined "7" signed_in
                  [StartAnalysis; Reply 1 (ok started); Tick 0] _ _ _ Hin)).
Defined.

Lemma receive_browser b rp :
  (receive b rp).1 = b
  ∨ (receive b rp).1 = set_href (removeItem b "token") "/login".
Proof.
  unfold receive. destruct (settle rp) as [r|e]; [by left|].
  unfold response_interceptor. destruct (error_response e) as [r|]; [|by left].
  destruct (api.status r =? 401); [by right|by left].
Qed.

Lemma step_window w ev :
  window (step w ev) = window w
  ∨ window (step w ev) = set_href (removeItem (window w) "token") "/login".
Proof.
  destruct ev as [| |id|rid rp|]; try (left; step_cases; done).
  simpl. unfold deliver.
  destruct (pending w !! rid) as [site|]; [|by left].
  pose proof (receive_browser (window w) rp) as Hr.
  destruct (receive (window w) rp) as [b1 p]. simpl in Hr.
  assert (Hd : (return_data b1 p).1 = b1) by (by destruct p).
  destruct (return_data b1 p) as [b2 d]. simpl in Hd. subst b2.
  assert (Hw : ∀ a : action,
            (∀ w0, window (a w0) = window w0) →
            window ((settled rid b1 >>> a) w) = b1).
  { intros a Ha. unfold then_. by rewrite Ha. }
  destruct site; rewrite Hw; try done; intros w0; step_cases; done.
Qed.

Lemma torn_down_step b b1 :
  torn_down_at_most b b1 →
  torn_down_at_most b (set_href (removeItem b1 "token") "/login").
Proof.
  intros [Hs [n Hn]]. split; simpl.
  - right. destruct Hs as [->| ->]; [done|]. by rewrite delete_delete_eq.
  - exists (S n). rewrite Hn, <- app_assoc. f_equal.
    change ["/login"] with (replicate 1 "/login").
    rewrite <- replicate_add. f_equal. lia.
Qed.

Lemma run_torn_down b evs : ∀ w,
  torn_down_at_most b (window w) → torn_down_at_most b (window (run w evs)).
Proof.
  induction evs as [|ev evs IH]; intros w Hw; [done|].
  rewrite run_cons. apply IH.
  destruct (step_window w ev) as [-> | ->]; [done|]. by apply torn_down_step.
Qed.

(** X23.  In every run, the hook leaves the browser alone except for the
    session teardown of the API client: it never stores anything, the only
    key that can change is [token] and only by being removed, and the
    location is assigned nothing but [/login]. *)
Theorem hook_never_writes_storage (pid : string) (b : browser)
    (evs : list event) :
  let b' := window (run (mount pid b) evs) in
  (∀ k : string, k ≠ "token" → getItem b' k = getItem b k)
  ∧ (getItem b' "token" = getItem b "token" ∨ getItem b' "token" = None)
  ∧ ∃ n : nat, navigations b' = navigations b ++ replicate n "/login".
Proof.
  cbv zeta.
  assert (H0 : torn_down_at_most b (window (mount pid b))).
  { unfold mount. destruct (truthy (VStr pid)); unfold_hook; simpl;
      (split; [by left|exists 0%nat; by rewrite app_nil_r]). }
  destruct (run_torn_down b evs _ H0) as [Hs Hn].
  split; [|split; [|done]]; unfold getItem.
  - intros k Hk. destruct Hs as [->| ->]; [done|]. by rewrite lookup_delete_ne.
  - destruct Hs as [->| ->]; [by left|right; apply lookup_delete_eq].
Qed.

(** X24.  The results are fetched per [completed] reply, not per loop: in
    every run, when two status requests of one loop are in flight and both
    are answered [completed], the callback cancels the timer and requests
    the results each time, so the results are fetched twice. *)
Theorem overlapping_completed_replies_fetch_twice (pid : string) (b : browser)
    (evs : list event) (rid1 rid2 i : nat) (rp1 rp2 : reply) :
  let w := run (mount pid b) evs in
  rid1 ≠ rid2 →
  pending w !! rid1 = Some (InPoll i) →
  pending w !! rid2 = Some (InPoll i) →
  reports_completed rp1 = true →
  reports_completed rp2 = true →
  let fetch := wire (analysisService.getAnalysisResults (window w) pid) in
  log (run w [Reply rid1 rp1; Reply rid2 rp2])
  = log w ++ [ClearInterval i; Http (next_request w) InFetchResults fetch;
              ClearInterval i; Http (S (next_request w)) InFetchResults fetch].
Proof.
  intros w Hne Hp1 Hp2 Hc1 Hc2 fetch.
  assert (Hb : requests_bounded w)
    by apply run_requests_bounded, mount_requests_bounded.
  assert (Hpid : projectId w = pid).
  { unfold w. by rewrite run_projectId, mount_projectId. }
  destruct (reports_completed_inv rp1 Hc1) as (r1 & s1 & Hs1 & Hg1 & Hcomp1).
  rewrite !run_cons. simpl.
  set (w1 := deliver rid1 rp1 w).
  assert (Hw1 : w1 = step w (Reply rid1 rp1)) by done.
  destruct (completed_reply_fetches w rid1 i rp1 Hp1 Hc1) as (Hl1 & _).
  rewrite <- Hw1 in Hl1.
  assert (Hstate : window w1 = window w ∧ projectId w1 = projectId w
                   ∧ next_request w1 = S (next_request w)
                   ∧ pending w1 !! rid2 = Some (InPoll i)).
  { rewrite Hw1, (deliver_poll_fulfilled w rid1 i rp1 r1 Hp1 Hs1).
    unfold_hook. simpl. rewrite Hg1, Hcomp1. simpl.
    do 3 (split; [done|]).
    rewrite lookup_insert_ne by (apply Hb in Hp2; lia).
    by rewrite lookup_delete_ne. }
  destruct Hstate as (Hwin & Hproj & Hnext & Hp2').
  destruct (completed_reply_fetches w1 rid2 i rp2 Hp2' Hc2) as (Hl2 & _).
  simpl in Hl2. rewrite Hl2, Hl1, Hwin, Hproj, Hnext, Hpid, <- app_assoc. done.
Qed.

Lemma overlapping_completed_replies_fetch_twice_witness :
  let w := step polling (Tick 0) in
  pending w !! 2%nat = Some (InPoll 0)
  ∧ pending w !! 3%nat = Some (InPoll 0)
  ∧ length (log (run w [Reply 2 (reported "completed"); Reply 3 (reported "completed")]))
    = (length (log w) + 4)%nat.
Proof.
  cbv zeta. split; [vm_compute; reflexivity|]. split; [vm_compute; reflexivity|].
  change (step polling (Tick 0))
    with (run (mount "7" signed_in)
            [StartAnalysis; Reply 1 (ok started); Tick 0; Tick 0]).
  rewrite (overlapping_completed_replies_fetch_twice "7" signed_in
             [StartAnalysis; Reply 1 (ok started); Tick 0; Tick 0] 2 3 0
             (reported "completed") (reported "completed")
             ltac:(discriminate) ltac:(vm_compute; reflexivity)
             ltac:(vm_compute; reflexivity) eq_refl eq_refl).
  rewrite length_app. reflexivity.
Defined.

(** X25.  Mounting the hook without a project id (the empty string) sends
    nothing; with one, it sends exactly the request for that project's
    results.  Either way no timer exists, the status is [not_started] and
    [loading] is false. *)
Theorem mount_fetches_results_if_project (pid : string) (b : browser) :
  (pid = "" → log (mount pid b) = [] ∧ pending (mount pid b) = ∅)
  ∧ (pid ≠ "" →
     ∃ req, log (mount pid b) = [Http 0 InFetchResults req]
            ∧ method req = GET
            ∧ url req = "/analysis/results/" +:+ pid
            ∧ pending (mount pid b) = {[ 0%nat := InFetchResults ]})
  ∧ timers (mount pid b) = ∅
  ∧ useAnalysis.status (cells (mount pid b)) = VStr "not_started"
  ∧ useAnalysis.loading (cells (mount pid b)) = false.
Proof.
  unfold mount. simpl.
  destruct (decide (pid = "")) as [->|Hne].
  - simpl. repeat split; done.
  - rewrite bool_decide_eq_false_2 by done. simpl. unfold_hook. simpl.
    split; [done|]. split; [|done]. intros _. eexists. split; [done|].
    unfold get, send.
    by rewrite request_interceptor_method, request_interceptor_url.
Qed.

(** ** Helpers *)

Lemma ge_monotone (x y : helpers.number) (k : Q) :
  helpers.le x y → helpers.ge x k = true → helpers.ge y k = true.
Proof.
  destruct x as [p| | |], y as [q| | |]; simpl; try done.
  intros Hle Hk. apply Qle_bool_iff. apply Qle_bool_iff in Hk.
  by apply Qle_trans with p.
Qed.

Lemma substring_0_length (n : nat) (s : string) :
  String.length (String.substring 0 n s) = Nat.min n (String.length s).
Proof.
  revert s. induction n as [|n IH]; intros s.
  - by destruct s.
  - destruct s as [|c s]; simpl; [done|]. by rewrite IH.
Qed.

Lemma substring_0_app (n : nat) (s t : string) :
  (n ≤ String.length s)%nat →
  String.substring 0 n (s +:+ t) = String.substring 0 n s.
Proof.
  revert s. induction n as [|n IH]; intros s Hn.
  - destruct s; simpl; [by destruct t|done].
  - destruct s as [|c s]; simpl in *; [lia|].
    f_equal. apply IH. lia.
Qed.

Lemma substring_0_idem (n : nat) (s : string) :
  String.substring 0 n (String.substring 0 n s) = String.substring 0 n s.
Proof.
  revert s. induction n as [|n IH]; intros s.
  - by destruct s.
  - destruct s as [|c s]; simpl; [done|]. by rewrite IH.
Qed.

Lemma length_app_string (s t : string) :
  String.length (s +:+ t) = (String.length s + String.length t)%nat.
Proof. induction s as [|c s IH]; simpl; [done|]. by rewrite IH. Qed.

Lemma length_le_false_finite (n : nat) (q : Q) :
  helpers.length_le n (helpers.Finite q) = false →
  (Z.to_nat (Qfloor q) ≤ n)%nat.
Proof.
  simpl. intros H.
  destruct (decide (n < Z.to_nat (Qfloor q))%nat) as [Hle|]; [|lia].
  exfalso. apply not_true_iff_false in H. apply H. apply Qle_bool_iff.
  apply Qle_trans with (inject_Z (Qfloor q)); [|apply Qfloor_le].
  rewrite <- Zle_Qle. lia.
Qed.

Lemma length_le_floor_plus (q : Q) (k : nat) :
  (0 < k)%nat →
  helpers.length_le (Z.to_nat (Qfloor q) + k) (helpers.Finite q) = false.
Proof.
  intros Hk. simpl. apply not_true_iff_false. intros H.
  apply Qle_bool_iff in H.
  pose proof (Qlt_floor q) as Hlt.
  assert (Hle : (inject_Z (Qfloor q + 1) <= inject_Z (Z.of_nat (Z.to_nat (Qfloor q) + k)))%Q).
  { rewrite <- Zle_Qle. lia. }
  apply (Qlt_irrefl q). eapply Qlt_le_trans; [exact Hlt|].
  by eapply Qle_trans.
Qed.

(** X26.  Label and colour of a quality score always belong together
    (Excellent/green, Good/blue, Fair/yellow, Poor/red), for every number
    including [NaN] and the infinities; the bands are [>= 90], [>= 70],
    [>= 50] and the rest, and [NaN] falls in the last. *)
Theorem quality_label_matches_colour (score : helpers.number) :
  ((helpers.getQualityLabel score = "Excellent"
    ∧ helpers.getQualityColor score = "text-green-600"
    ∧ helpers.ge score (inject_Z 90) = true)
   ∨ (helpers.getQualityLabel score = "Good"
      ∧ helpers.getQualityColor score = "text-blue-600"
      ∧ helpers.ge score (inject_Z 90) = false
      ∧ helpers.ge score (inject_Z 70) = true)
   ∨ (helpers.getQualityLabel score = "Fair"
      ∧ helpers.getQualityColor score = "text-yellow-600"
      ∧ helpers.ge score (inject_Z 70) = false
      ∧ helpers.ge score (inject_Z 50) = true)
   ∨ (helpers.getQualityLabel score = "Poor"
      ∧ helpers.getQualityColor score = "text-red-600"
      ∧ helpers.ge score (inject_Z 50) = false))
  ∧ helpers.getQualityLabel helpers.NaN = "Poor".
Proof.
  split; [|done].
  unfold helpers.getQualityLabel, helpers.getQualityColor.
  destruct (helpers.ge score (inject_Z 90)) eqn:H90; [by left|].
  destruct (helpers.ge score (inject_Z 70)) eqn:H70; [by right; left|].
  destruct (helpers.ge score (inject_Z 50)) eqn:H50; [by right; right; left|].
  by right; right; right.
Qed.

(** X27.  A higher score never gets a worse label: the rank of the label
    (Poor, Fair, Good, Excellent) is monotone in the score. *)
Theorem quality_label_is_monotone (x y : helpers.number) :
  helpers.le x y →
  (helpers.rank (helpers.getQualityLabel x)
   ≤ helpers.rank (helpers.getQualityLabel y))%nat.
Proof.
  intros Hle. unfold helpers.getQualityLabel.
  pose proof (ge_monotone x y (inject_Z 90) Hle) as H90.
  pose proof (ge_monotone x y (inject_Z 70) Hle) as H70.
  pose proof (ge_monotone x y (inject_Z 50) Hle) as H50.
  destruct (helpers.ge x (inject_Z 90)); [rewrite H90 by done; done|].
  destruct (helpers.ge x (inject_Z 70)).
  { rewrite H70 by done. destruct (helpers.ge y (inject_Z 90)); vm_compute; lia. }
  destruct (helpers.ge x (inject_Z 50)).
  { rewrite H50 by done.
    destruct (helpers.ge y (inject_Z 90)), (helpers.ge y (inject_Z 70));
      vm_compute; lia. }
  destruct (helpers.ge y (inject_Z 90)), (helpers.ge y (inject_Z 70)),
    (helpers.ge y (inject_Z 50)); vm_compute; lia.
Qed.

Lemma quality_label_is_monotone_witness :
  helpers.le (helpers.Finite (139 # 2)) (helpers.Finite (inject_Z 70))
  ∧ (helpers.rank (helpers.getQualityLabel (helpers.Finite (139 # 2)))
     ≤ helpers.rank (helpers.getQualityLabel (helpers.Finite (inject_Z 70))))%nat.
Proof.
  assert (H : helpers.le (helpers.Finite (139 # 2)) (helpers.Finite (inject_Z 70))).
  { simpl. unfold Qle. simpl. lia. }
  split; [exact H|].
  exact (quality_label_is_monotone _ _ H).
Defined.

(** X28.  For a finite limit, [truncateText] returns the text itself
    exactly when its length is at most the limit, and otherwise the first
    [floor limit] characters of it (none for a negative limit) followed by
    three dots; the result is never longer than the text or three more
    than [floor limit], whichever is larger.  With the limit omitted it
    is 50. *)
Theorem truncateText_shape (text : string) (q : Q) :
  let limit := Z.to_nat (Qfloor q) in
  let out := helpers.truncateText text (Some (helpers.Finite q)) in
  (((inject_Z (Z.of_nat (String.length text)) <= q)%Q ∧ out = text)
   ∨ (¬ (inject_Z (Z.of_nat (String.length text)) <= q)%Q
      ∧ out = String.substring 0 limit text +:+ "..."
      ∧ String.length out = (limit + 3)%nat
      ∧ (limit ≤ String.length text)%nat))
  ∧ (String.length out ≤ Nat.max (String.length text) (limit + 3))%nat
  ∧ helpers.truncateText text None
    = helpers.truncateText text (Some (helpers.Finite (inject_Z 50))).
Proof.
  cbv zeta. unfold helpers.truncateText. simpl default.
  destruct (helpers.length_le (String.length text) (helpers.Finite q)) eqn:Hfit.
  - split; [left; split; [by apply Qle_bool_iff|done]|]. split; [lia|done].
  - pose proof (length_le_false_finite _ _ Hfit) as Hlt.
    assert (Hlen : String.length
              (helpers.substring_to (helpers.Finite q) text +:+ "...")
            = (Z.to_nat (Qfloor q) + 3)%nat).
    { rewrite length_app_string. simpl. rewrite substring_0_length. lia. }
    split; [|split; [lia|done]].
    right. split; [|done].
    intros Hle. apply Qle_bool_iff in Hle. simpl in Hfit. congruence.
Qed.

(** X29.  Truncating twice with the same limit is the same as truncating
    once, for every limit: a finite number, [NaN], an infinity, or the
    default. *)
Theorem truncateText_idempotent (text : string) (maxLength : option helpers.number) :
  helpers.truncateText (helpers.truncateText text maxLength) maxLength
  = helpers.truncateText text maxLength.
Proof.
  unfold helpers.truncateText.
  destruct (default (helpers.Finite (inject_Z 50)) maxLength) as [q| | |].
  - destruct (helpers.length_le (String.length text) (helpers.Finite q)) eqn:Hfit;
      [by rewrite Hfit|].
    pose proof (length_le_false_finite _ _ Hfit) as Hlt.
    assert (Hpre : String.length (String.substring 0 (Z.to_nat (Qfloor q)) text)
                   = Z.to_nat (Qfloor q)).
    { rewrite substring_0_length. lia. }
    replace (helpers.length_le
               (String.length (helpers.substring_to (helpers.Finite q) text +:+ "..."))
               (helpers.Finite q)) with false.
    + unfold helpers.substring_to. rewrite substring_0_app by lia.
      by rewrite substring_0_idem.
    + symmetry. rewrite length_app_string. unfold helpers.substring_to.
      rewrite Hpre. by apply length_le_floor_plus; simpl; lia.
  - done.
  - done.
  - done.
Qed.
